(** * AlignTK image and map I/O (imio.c): a shallow embedding

    The routines of [imio.c] read and write grayscale images (TIFF, PGM,
    PPM, JPEG, BMP), bitmaps (PBM) and deformation maps ("M1" files).
    They are embedded here as functions over an explicit file system:

    - a byte is an integer ([Z]); a file is the list of its bytes, and an
      open [FILE*] that is only read sequentially is the list of the bytes
      not yet consumed;
    - a C string ([char *]) is a [string];
    - [int] values live in [Z]; signed overflow is undefined in C, so the
      theorems carry range hypotheses wherever the source computes with
      [int]; the products of [int]s in [ReadMap] and [ReadBmpImage]
      are wrapped to 32 bits ([s32]), which is what the compiled code
      does with them; arithmetic on [uint32] and conversions to [size_t]
      wrap, and the wrap-around is written out ([u32], [size_t_of]);
    - a routine returning 1 with its out-parameters filled is [Success],
      a routine returning 0 with a message in [error] is [Failure];
    - what the C library and libtiff/libjpeg/zlib decide (allocation,
      creation of files, decoding) is taken from an [Environment];
    - strings are not bounded: the buffers of [PATH_MAX] characters that
      hold the file names given by the caller are assumed large enough;
      what [fscanf] converts from the content of a file is required to
      fit ([header_fits]) where a theorem speaks about every file. *)

From Stdlib Require Import ZArith Lia Ascii String List.
From stdpp Require Import base list strings gmap pretty.

Local Open Scope Z_scope.

(** ** Bytes, characters and strings *)

Definition EOF : Z := -1.

Definition chr (a : ascii) : Z := Z.of_N (N_of_ascii a).

Definition ascii_of_byte (b : Z) : ascii := ascii_of_N (Z.to_N b).

Definition bytes_of_string (s : string) : list Z :=
  chr <$> list_ascii_of_string s.

Definition string_of_bytes (l : list Z) : string :=
  string_of_list_ascii (ascii_of_byte <$> l).

(** The newline character, as a byte and as a string. *)
Definition NL : Z := 10.
Definition nl : string := String (ascii_of_nat 10) EmptyString.

(** [tolower] of the C locale. *)
Definition tolower (a : ascii) : ascii :=
  let n := N_of_ascii a in
  if ((65 <=? n) && (n <=? 90))%N then ascii_of_N (n + 32) else a.

(** [strcasecmp(a, b) == 0]. *)
Definition strcasecmp0 (a b : list ascii) : bool :=
  bool_decide (tolower <$> a = tolower <$> b).

(** [&filename[len-k]]: the last [k] characters of [s]. *)
Definition tail_from (k : nat) (s : string) : list ascii :=
  drop (String.length s - k)%nat (list_ascii_of_string s).

(** [strcasecmp(&filename[len-k], ext) == 0] with [k = strlen(ext)]. *)
Definition ends_with (s ext : string) : bool :=
  strcasecmp0 (tail_from (String.length ext) s) (list_ascii_of_string ext).

(** [len > k && strcasecmp(&filename[len-k], ext) == 0]. *)
Definition has_extension (s ext : string) : bool :=
  (String.length ext <? String.length s)%nat && ends_with s ext.

(** [strrchr(s, ch)]: the index of the last [ch] among the characters
    [l] of [s], the first of which has index [i]. *)
Fixpoint strrchr_from (ch : ascii) (l : list ascii) (i : nat) : option nat :=
  match l with
  | [] => None
  | a :: r =>
      match strrchr_from ch r (S i) with
      | Some p => Some p
      | None => if Ascii.eqb a ch then Some i else None
      end
  end.

Definition strrchr (s : string) (ch : ascii) : option nat :=
  strrchr_from ch (list_ascii_of_string s) 0.

(** ** Machine integers *)

Definition u32 (x : Z) : Z := x mod 2 ^ 32.

Definition s32 (x : Z) : Z := (x + 2 ^ 31) mod 2 ^ 32 - 2 ^ 31.

(** Conversion to [size_t] (64 bits). *)
Definition size_t_of (x : Z) : Z := x mod 2 ^ 64.

(** C division of [int]s truncates toward zero. *)
Definition cdiv (a b : Z) : Z := Z.quot a b.

(** ** Results *)

Inductive status (A : Type) : Type :=
| Success (a : A)
| Failure (error : string).
Arguments Success {A} a.
Arguments Failure {A} error.

(** Sequencing: the first failure ends the routine ([return(0)]). *)
#[global] Instance status_bind : MBind status :=
  fun A B k r =>
    match r with
    | Success a => k a
    | Failure e => Failure e
    end.

#[global] Instance status_ret : MRet status := fun A a => Success a.

(** ** stdio *)

Definition is_digit (c : Z) : bool := (48 <=? c) && (c <=? 57).

(** The character at the head of a stream, [EOF] on an empty one. *)
Definition cur (s : list Z) : Z :=
  match s with
  | [] => EOF
  | c :: _ => c
  end.

(** [printf("%d")]. The digits are produced from the least significant
    one; [fuel] bounds their number. *)
Fixpoint decimal_digits (fuel : nat) (n : Z) (acc : list Z) : list Z :=
  match fuel with
  | O => acc
  | S fuel' =>
      let acc' := (48 + n mod 10) :: acc in
      if n / 10 =? 0 then acc' else decimal_digits fuel' (n / 10) acc'
  end.

Definition print_unsigned (n : Z) : list Z :=
  decimal_digits (S (Z.to_nat (Z.log2 n))) n [].

Definition printf_d (n : Z) : list Z :=
  if n <? 0 then 45 :: print_unsigned (- n) else print_unsigned n.

Definition sprintf_d (n : Z) : string := string_of_bytes (printf_d n).

(** The loop
    [while (c != EOF && c >= '0' && c <= '9') { v = 10*v + (c-'0'); c = fgetc(f); }]
    on a stream whose head is the current character [c]; the stream
    returned has the character that ended the loop at its head. *)
Fixpoint scan_digits (v : Z) (s : list Z) : Z * list Z :=
  match s with
  | [] => (v, [])
  | c :: r => if is_digit c then scan_digits (10 * v + (c - 48)) r else (v, s)
  end.






(** [fread(ptr, 1, n, f)]: the bytes obtained and the stream behind them. *)
Definition fread (n : Z) (f : list Z) : list Z * list Z :=
  (take (Z.to_nat n) f, drop (Z.to_nat n) f).

(** [fwrite(ptr, size, 1, f)]: the bytes written and whether the call
    returned 1. With [size == 0] nothing is written and [fwrite]
    returns 0. *)
Definition fwrite1 (size : Z) (mem : list Z) : list Z * bool :=
  (take (Z.to_nat size) mem, negb (size =? 0)).

(** ** imio.h *)

(** Modelled from the spec: [imio.h] is not among the sources. A
    [MapElement] is [{float x; float y; float c;}]; a [float] is kept as
    the four bytes of its object representation, in the byte order of
    the host. *)
Record float : Type := Float { fb0 : Z; fb1 : Z; fb2 : Z; fb3 : Z }.

Record MapElement : Type := { x : float; y : float; c : float }.

Definition sizeof_MapElement : Z := 12.

(** Modelled from the spec: the enumerations of [imio.h], with the
    constants that [imio.c] names. *)
Inductive ImageCompression : Type :=
| UncompressedImage | HDiffDeflateImage
| JpegQuality95 | JpegQuality90 | JpegQuality85
| JpegQuality80 | JpegQuality75 | JpegQuality70.

Inductive BitmapCompression : Type :=
| UncompressedBitmap | OtherBitmapCompression.

Inductive MapCompression : Type :=
| UncompressedMap | OtherMapCompression.

(** ** libtiff, libjpeg, zlib and the C library *)

(** What libtiff reports about an opened image: the tags ([None] when
    [TIFFGetField] returns 0), [TIFFStripSize], and for each strip what
    [TIFFReadEncodedStrip] decodes ([None] when it returns -1). *)
Record TIFF : Type := {
  tif_bitspersample : option Z;
  tif_samplesperpixel : option Z;
  tif_imagewidth : option Z;
  tif_imagelength : option Z;
  tif_photometric : option Z;
  tif_stripsize : Z;
  tif_strips : list (option (list Z))
}.

Definition PHOTOMETRIC_MINISBLACK : Z := 1.

(** [TIFFGetField(...) != 0]. *)
Definition defined (tag : option Z) : bool :=
  match tag with
  | Some _ => true
  | None => false
  end.

(** What libjpeg reports about a stream decoded with
    [out_color_space = JCS_GRAYSCALE]. *)
Record JPEG : Type := {
  jpg_image_width : Z;
  jpg_image_height : Z;
  jpg_output_width : Z;
  jpg_output_height : Z;
  jpg_output_components : Z;
  jpg_scanlines : list Z
}.

Record Environment : Type := {
  (** whether [malloc(n)] returns a non-null pointer *)
  malloc_ok : Z -> bool;
  (** whether [fopen(name, "wb")] or [TIFFOpen(name, "w")] succeeds *)
  fopen_w_ok : string -> bool;
  (** [TIFFOpen(name, "r")] on the bytes of the file *)
  TIFFOpen : list Z -> option TIFF;
  (** the file that libtiff produces; [None] when [TIFFWriteScanline] fails *)
  tiff_encode : Z -> Z -> ImageCompression -> list Z -> option (list Z);
  (** the bytes in the file of an image that [TIFFOpen(name, "w")] has
      created and that is never closed *)
  tiff_unfinished : Z -> Z -> ImageCompression -> list Z -> list Z;
  (** of the bytes written to a stream that is neither flushed nor
      closed, those that have reached the file when the routine returns *)
  reached_file : list Z -> list Z;
  (** libjpeg on the bytes of the file; its fatal errors end the process
      and are outside this model *)
  jpeg_decode : list Z -> JPEG;
  jpeg_encode : Z -> Z -> Z -> list Z -> list Z;
  gz_compress : list Z -> list Z;
  (** the integer value of an enumeration constant *)
  ImageCompression_int : ImageCompression -> Z;
  (** the bytes found in a block that [malloc] returns *)
  indeterminate : list Z
}.

(** The mutable part of the world: the files, and the two static
    variables [extension] and [bitmapExtension]. *)
Record World : Type := {
  files : gmap string (list Z);
  extension : Z;
  bitmapExtension : Z
}.

Definition N_EXTENSIONS : Z := 14.

Definition extensions : list string :=
  [ ".tif"; ".tiff"; ".TIF"; ".TIFF";
    ".pgm"; ".PGM"; ".ppm"; ".PPM";
    ".jpg"; ".jpeg"; ".JPG"; ".JPEG";
    ".bmp"; ".BMP" ]%string.

Definition BMP_FILE_TYPE : Z := 0x4D42.

(** ** PNM headers *)

(** [while ((c = fgetc(f)) != EOF && c != '\n') ;] on the unread stream:
    the result has the newline that ended the loop at its head, or is
    empty when the loop ended on [EOF]. *)
Fixpoint skip_to_eol (s : list Z) : list Z :=
  match s with
  | [] => []
  | c :: r => if c =? NL then s else skip_to_eol r
  end.

(** The loop
    [while (c == ' ' || c == '\t' || c == '\n' || c == '#')
       if (c == '#') { while ((c = fgetc(f)) != EOF && c != '\n') ; }
       else c = fgetc(f);]
    on a stream whose head is the current character. The inner loop is
    the state [in_comment]: it leaves on a newline, which the outer loop
    then skips as white space, or on [EOF], which ends both loops. *)
Fixpoint skip_blanks (in_comment : bool) (s : list Z) : list Z :=
  match s with
  | [] => []
  | c :: r =>
      if in_comment then skip_blanks (negb (c =? NL)) r
      else if (c =? 32) || (c =? 9) || (c =? NL) then skip_blanks false r
      else if c =? chr "#" then skip_blanks true r
      else s
  end.

(** [if (c >= '0' && c <= '9') { v = 0; while ... } else return(0);] *)
Definition read_number (s : list Z) : option (Z * list Z) :=
  if is_digit (cur s) then Some (scan_digits 0 s) else None.

(** [ReadHeader]: the type character, width, height and maximum value
    ([None] for type '4', where [*m] is not assigned), and the stream
    behind the last character read. The first loop
    [while (c == '#') { ... }] runs its body at most once, since the
    inner loop leaves [c] equal to a newline or [EOF]. *)
Definition ReadHeader (f : list Z) : option (Z * Z * Z * option Z * list Z) :=
  let s := if cur f =? chr "#" then skip_to_eol (tl f) else f in
  if negb (cur s =? chr "P") then None else
  let s := tl s in
  let tc := cur s in
  if negb ((tc =? chr "4") || (tc =? chr "5") || (tc =? chr "6")) then None else
  let s := skip_blanks false (tl s) in
  match read_number s with
  | None => None
  | Some (v, s) =>
      let w := u32 v in
      let s := skip_blanks false s in
      match read_number s with
      | None => None
      | Some (v, s) =>
          let h := u32 v in
          if tc =? chr "4" then Some (tc, w, h, None, tl s) else
          let s := skip_blanks false s in
          match read_number s with
          | None => None
          | Some (v, s) => Some (tc, w, h, Some v, tl s)
          end
      end
  end.

(** ** Sample data *)

(** An environment in which allocation and the creation of files
    succeed, no TIFF or JPEG file is recognized, and a stream that is
    left open has passed nothing on to its file. *)
Definition sample_env : Environment := {|
  malloc_ok := fun _ => true;
  fopen_w_ok := fun _ => true;
  TIFFOpen := fun _ => None;
  tiff_encode := fun _ _ _ _ => None;
  tiff_unfinished := fun _ _ _ _ => [];
  reached_file := fun _ => [];
  jpeg_decode := fun _ =>
    {| jpg_image_width := 0; jpg_image_height := 0;
       jpg_output_width := 0; jpg_output_height := 0;
       jpg_output_components := 1; jpg_scanlines := [] |};
  jpeg_encode := fun _ _ _ _ => [];
  gz_compress := fun l => l;
  ImageCompression_int := fun _ => 0;
  indeterminate := []
|}.

(** A TIFF image of 2 by 2 pixels in one strip, white is zero. *)
Definition sample_tiff : TIFF := {|
  tif_bitspersample := Some 8;
  tif_samplesperpixel := Some 1;
  tif_imagewidth := Some 2;
  tif_imagelength := Some 2;
  tif_photometric := Some 0;
  tif_stripsize := 4;
  tif_strips := [Some [1; 2; 3; 4]]
|}.

(** The sample environment with a libtiff that decodes every file as
    [sample_tiff]. *)
Definition tiff_env : Environment := {|
  malloc_ok := malloc_ok sample_env;
  fopen_w_ok := fopen_w_ok sample_env;
  TIFFOpen := fun _ => Some sample_tiff;
  tiff_encode := tiff_encode sample_env;
  tiff_unfinished := tiff_unfinished sample_env;
  reached_file := reached_file sample_env;
  jpeg_decode := jpeg_decode sample_env;
  jpeg_encode := jpeg_encode sample_env;
  gz_compress := gz_compress sample_env;
  ImageCompression_int := ImageCompression_int sample_env;
  indeterminate := indeterminate sample_env
|}.

Definition sample_vertex : MapElement := {|
  x := Float 0 0 128 63; y := Float 0 0 0 64; c := Float 0 0 128 63
|}.

(** A PGM file of 2 by 2 pixels. *)
Definition sample_pgm : list Z :=
  bytes_of_string "P5" ++ [NL] ++ bytes_of_string "2 2" ++ [NL]
  ++ bytes_of_string "255" ++ [NL] ++ [1; 2; 3; 4].

(** A binary PPM (P6) file of 1 by 1 pixel. *)
Definition sample_ppm : list Z :=
  bytes_of_string "P6" ++ [NL] ++ bytes_of_string "1 1" ++ [NL]
  ++ bytes_of_string "255" ++ [NL] ++ [200; 100; 50].

(** The gray palette of an 8-bit BMP file: 256 entries of four bytes. *)
Definition gray_palette : list Z :=
  mjoin ((fun i => [i; i; i; 0]) <$> seqZ 0 256).

(** An 8-bit uncompressed BMP file of 2 by 2 pixels. Its rows are
    stored bottom-up, each padded to four bytes: the bottom row 10 11,
    then the top row 20 21. The pixel data start at offset 1078. *)
Definition sample_bmp : list Z :=
  [66; 77] ++ [62; 4; 0; 0] ++ [0; 0; 0; 0] ++ [54; 4; 0; 0]
  ++ [40; 0; 0; 0] ++ [2; 0; 0; 0] ++ [2; 0; 0; 0] ++ [1; 0] ++ [8; 0]
  ++ [0; 0; 0; 0] ++ [8; 0; 0; 0] ++ [196; 14; 0; 0] ++ [196; 14; 0; 0]
  ++ [0; 1; 0; 0] ++ [0; 0; 0; 0]
  ++ gray_palette
  ++ [10; 11; 0; 0] ++ [20; 21; 0; 0].



Definition sample_world (name : string) (f : list Z) : World :=
  {| files := {[ name := f ]}; extension := 0; bitmapExtension := 0 |}.

Definition empty_world : World :=
  {| files := ∅; extension := 0; bitmapExtension := 0 |}.

(** ** Memory *)

(** [b[count] = ~b[count]] on an [unsigned char]. *)
Definition complement (b : Z) : Z := Z.lnot b mod 256.

(** A value stored in the byte order of the host, which is
    little-endian ([BMP_FILE_TYPE] is "BM" in little endian). *)
Fixpoint le_value (bs : list Z) : Z :=
  match bs with
  | [] => 0
  | b :: r => b + 256 * le_value r
  end.

Section Imio.

Variable E : Environment.

Implicit Types (fs : gmap string (list Z)) (filename : string).

(** ** Image sizes *)

Definition ReadTiffImageSize fs filename : status (Z * Z) :=
  match fs !! filename ≫= TIFFOpen E with
  | None => Failure ("Could not open TIFF image: " +:+ filename +:+ nl)
  | Some image =>
      match tif_imagewidth image with
      | None =>
          Failure ("TIFF image " +:+ filename +:+ " does not define its width" +:+ nl)
      | Some iw =>
          match tif_imagelength image with
          | None =>
              Failure ("TIFF image " +:+ filename
                       +:+ " does not define its height (length)" +:+ nl)
          | Some ih => Success (s32 iw, s32 ih)
          end
      end
  end.

Definition could_not_open_for_reading filename : string :=
  "Could not open file " +:+ filename +:+ " for reading" +:+ nl.

Definition ReadPgmImageSize fs filename : status (Z * Z) :=
  match fs !! filename with
  | None => Failure (could_not_open_for_reading filename)
  | Some f =>
      match ReadHeader f with
      | None => Failure ("Image file " +:+ filename +:+ " not binary pgm." +:+ nl)
      | Some (_, iw, ih, _, _) => Success (s32 iw, s32 ih)
      end
  end.

Definition ReadPpmImageSize fs filename : status (Z * Z) :=
  match fs !! filename with
  | None => Failure (could_not_open_for_reading filename)
  | Some f =>
      match ReadHeader f with
      | None => Failure ("Image file " +:+ filename +:+ " not binary ppm." +:+ nl)
      | Some (_, iw, ih, _, _) => Success (s32 iw, s32 ih)
      end
  end.

Definition ReadJpgImageSize fs filename : status (Z * Z) :=
  match fs !! filename with
  | None => Failure (could_not_open_for_reading filename)
  | Some f =>
      let cinfo := jpeg_decode E f in
      Success (s32 (jpg_image_width cinfo), s32 (jpg_image_height cinfo))
  end.

(** [fread(&field, size, 1, f) != 1]: one header field of [size] bytes. *)
Definition read_field filename (field : string) (size : Z) (f : list Z)
  : status (Z * list Z) :=
  let '(bs, r) := fread size f in
  if Z.of_nat (length bs) =? size then Success (le_value bs, r)
  else Failure ("Image file " +:+ filename +:+ " not bmp " +:+ field +:+ "." +:+ nl).

(** The two headers of a BMP file, read field by field; [bpp8] is the
    test [info.biBitCount != 8] that only [ReadBmpImage] makes. The
    result is [bfOffset], [biWidth], [biHeight] and [biBitCount]. *)
Definition read_bmp_headers filename (bpp8 : bool) (f : list Z)
  : status (Z * Z * Z * Z) :=
  '(bfType, f) ← read_field filename "file.bfType" 2 f;
  if negb (bfType =? BMP_FILE_TYPE)
  then Failure ("Image file " +:+ filename +:+ " not bmp file.bfType." +:+ nl)
  else
  '(_, f) ← read_field filename "file.bfSize" 4 f;
  '(_, f) ← read_field filename "file.bfReserved" 4 f;
  '(bfOffset, f) ← read_field filename "file.bfOffset" 4 f;
  '(_, f) ← read_field filename "info.biSize" 4 f;
  '(biWidth, f) ← read_field filename "info.biWidth" 4 f;
  '(biHeight, f) ← read_field filename "info.biHeight" 4 f;
  '(_, f) ← read_field filename "info.biPlanes" 2 f;
  '(biBitCount, f) ← read_field filename "info.biBitCount" 2 f;
  if bpp8 && negb (biBitCount =? 8)
  then Failure ("Unsupported pixel size (" +:+ sprintf_d biBitCount
                +:+ ") for file " +:+ filename
                +:+ ". Convert to grayscale image" +:+ nl)
  else
  '(_, f) ← read_field filename "info.biCompression" 4 f;
  '(_, f) ← read_field filename "info.biImageSize" 4 f;
  '(_, f) ← read_field filename "info.biPixPerMeterX" 4 f;
  '(_, f) ← read_field filename "info.biPixPerMeterY" 4 f;
  '(_, f) ← read_field filename "info.biColorUsed" 4 f;
  '(_, f) ← read_field filename "info.biColorImportant" 4 f;
  Success (bfOffset, s32 biWidth, s32 biHeight, biBitCount).

Definition ReadBmpImageSize fs filename : status (Z * Z) :=
  match fs !! filename with
  | None => Failure (could_not_open_for_reading filename)
  | Some f =>
      '(_, biWidth, biHeight, _) ← read_bmp_headers filename false f;
      Success (biWidth, biHeight)
  end.

(** ** Image readers *)

(** The strips are decoded one after the other into [b + imageOffset];
    [TIFFReadEncodedStrip] delivers at most [stripSize] bytes. *)
Fixpoint read_strips filename (stripSize : Z) (strips : list (option (list Z)))
    (stripCount : Z) (imageOffset : Z) (b : list Z) : status (list Z) :=
  match strips with
  | [] => Success b
  | None :: _ =>
      Failure ("Read error on input strip number " +:+ sprintf_d stripCount
               +:+ " in TIFF file " +:+ filename +:+ nl)
  | Some data :: rest =>
      let got := take (Z.to_nat stripSize) data in
      read_strips filename stripSize rest (stripCount + 1)
        (imageOffset + Z.of_nat (length got))
        (list_inserts (Z.to_nat imageOffset) got b)
  end.

(** The block that [malloc(bufferSize)] returns holds indeterminate
    bytes. When [TIFFGetField] leaves [bps] unassigned the message
    prints an indeterminate value, shown here as 0. *)
Definition ReadTiffImage fs filename : status (list Z * Z * Z) :=
  match fs !! filename ≫= TIFFOpen E with
  | None => Failure ("Could not open TIFF image: " +:+ filename +:+ nl)
  | Some image =>
      let bps := default 0 (tif_bitspersample image) in
      if negb (defined (tif_bitspersample image)) || negb (bps =? 8)
      then Failure ("Either undefined or unsupported number of bits per sample (bps = "
                    +:+ sprintf_d bps +:+ ") in tiff image " +:+ filename +:+ nl)
      else
      let spp := default 0 (tif_samplesperpixel image) in
      if defined (tif_samplesperpixel image) && negb (spp =? 1)
      then Failure ("Unsupported number of samples per pixel (spp = "
                    +:+ sprintf_d spp +:+ ") in tiff image " +:+ filename +:+ nl)
      else
      match tif_imagewidth image with
      | None =>
          Failure ("TIFF image " +:+ filename +:+ " does not define its width" +:+ nl)
      | Some iw =>
      match tif_imagelength image with
      | None =>
          Failure ("Image " +:+ filename +:+ " does not define its height (length)" +:+ nl)
      | Some ih =>
          let stripSize := tif_stripsize image in
          let stripMax := Z.of_nat (length (tif_strips image)) in
          let bufferSize := size_t_of (stripMax * stripSize) in
          if negb (malloc_ok E bufferSize)
          then Failure ("Could not allocate enough memory for the uncompressed image (bytes = "
                        +:+ sprintf_d bufferSize +:+ ") of TIFF file " +:+ filename +:+ nl)
          else
          b ← read_strips filename stripSize (tif_strips image) 0 0
                (resize (Z.to_nat bufferSize) 0 (indeterminate E));
          match tif_photometric image with
          | None =>
              Failure ("TIFF file " +:+ filename
                       +:+ " has an undefined photometric interpretation" +:+ nl)
          | Some photo =>
              let b := if negb (photo =? PHOTOMETRIC_MINISBLACK)
                       then complement <$> (b : list Z) else b in
              Success (b, s32 iw, s32 ih)
          end
      end
      end
  end.

Definition ReadPgmImage fs filename : status (list Z * Z * Z) :=
  match fs !! filename with
  | None => Failure (could_not_open_for_reading filename)
  | Some f =>
      match ReadHeader f with
      | None => Failure ("Image file " +:+ filename +:+ " not binary pgm." +:+ nl)
      | Some (_, iw, ih, _, f) =>
          if negb (malloc_ok E (u32 (iw * ih)))
          then Failure ("Could not allocate enough memory for image in file "
                        +:+ filename +:+ nl)
          else
          let '(b, _) := fread (u32 (iw * ih)) f in
          if negb (Z.of_nat (length b) =? u32 (iw * ih))
          then Failure ("Image file " +:+ filename +:+ " apparently truncated." +:+ nl)
          else Success (b, s32 iw, s32 ih)
      end
  end.

Definition ReadPpmImage fs filename : status (list Z * Z * Z) :=
  match fs !! filename with
  | None => Failure (could_not_open_for_reading filename)
  | Some f =>
      match ReadHeader f with
      | None => Failure ("Image file " +:+ filename +:+ " not binary ppm." +:+ nl)
      | Some (_, iw, ih, _, f) =>
          if negb (malloc_ok E (u32 (iw * ih)))
          then Failure ("Could not allocate enough memory for image in file "
                        +:+ filename +:+ nl)
          else
          let '(b, _) := fread (u32 (iw * ih)) f in
          if negb (Z.of_nat (length b) =? u32 (iw * ih))
          then Failure ("Image file " +:+ filename +:+ " apparently truncated." +:+ nl)
          else Success (b, s32 iw, s32 ih)
      end
  end.

(** The two [malloc] calls of [ReadJpgImage] are not checked by the
    source; the scanlines fill the block row by row. *)
Definition ReadJpgImage fs filename : status (list Z * Z * Z) :=
  match fs !! filename with
  | None => Failure (could_not_open_for_reading filename)
  | Some f =>
      let cinfo := jpeg_decode E f in
      let iw := u32 (jpg_output_width cinfo) in
      let ih := u32 (jpg_output_height cinfo) in
      if negb (jpg_output_components cinfo =? 1)
      then Failure ("Image file " +:+ filename +:+ " is not a grayscale jpg." +:+ nl)
      else Success (jpg_scanlines cinfo, s32 iw, s32 ih)
  end.

(** [rowsize = (int)(ceil((info.biBitCount * width / 32) * 4))] with
    [width] the value just stored through the pointer: the product and
    the division are those of [int]s, so [ceil] receives an integer.
    The product wraps to 32 bits. *)
Definition rowsize (biBitCount width : Z) : Z :=
  cdiv (s32 (biBitCount * width)) 32 * 4.

(** The loop [for (int i = height; i > 0; i--)] over the rows of the file
    [f], with the position [pos] of the stream. Row [i-1] of the buffer
    is filled at iteration [i]; [b] holds the rows already filled, which
    all lie behind it. *)
Fixpoint read_bmp_rows filename (f : list Z) (width rowsize : Z)
    (i : nat) (pos : Z) (b : list Z) : status (list Z) :=
  match i with
  | O => Success b
  | S i' =>
      let '(row, _) := fread (size_t_of width) (drop (Z.to_nat pos) f) in
      if negb (Z.of_nat (length row) =? size_t_of width)
      then Failure ("Image file " +:+ filename +:+ " apparently truncated." +:+ nl)
      else
      let pos := pos + Z.of_nat (length row) + (rowsize - width) in
      if pos <? 0
      then Failure ("Could not reach image data in file " +:+ filename
                    +:+ ", row " +:+ sprintf_d (Z.of_nat i) +:+ nl)
      else read_bmp_rows filename f width rowsize i' pos (row ++ b)
  end.

Definition ReadBmpImage fs filename : status (list Z * Z * Z) :=
  match fs !! filename with
  | None => Failure (could_not_open_for_reading filename)
  | Some f =>
      '(bfOffset, width, height, biBitCount) ← read_bmp_headers filename true f;
      if negb (malloc_ok E (size_t_of (s32 (width * height))))
      then Failure ("Could not allocate enough memory for image in file "
                    +:+ filename +:+ nl)
      else
      b ← read_bmp_rows filename f width (rowsize biBitCount width)
            (Z.to_nat height) bfOffset [];
      Success (b, width, height)
  end.

(** ** ReadImageSize and ReadImage *)

(** The loop [for (i = 0; i < N_EXTENSIONS; ++i)] up to the first
    candidate that [stat] finds; [todo] counts the iterations left. *)
Fixpoint find_candidate fs filename (j i : Z) (todo : nat) : option (Z * string) :=
  match todo with
  | O => None
  | S todo' =>
      let k := Z.rem (j + i) N_EXTENSIONS in
      let fn := filename +:+ default ""%string (extensions !! Z.to_nat k) in
      match fs !! fn with
      | None => find_candidate fs filename j (i + 1) todo'
      | Some _ => Some (k, fn)
      end
  end.

Definition cannot_find_image filename : string :=
  "Cannot find image file with basename " +:+ filename +:+ nl.

(** [switch (k)] of [ReadImageSize]; [k] is below 14. *)
Definition size_reader (k : Z) fs (fn : string) : status (Z * Z) :=
  if k <=? 3 then ReadTiffImageSize fs fn
  else if k <=? 5 then ReadPgmImageSize fs fn
  else if k <=? 7 then ReadPpmImageSize fs fn
  else if k <=? 11 then ReadJpgImageSize fs fn
  else ReadBmpImageSize fs fn.

Definition ReadImageSize (w : World) filename : status (Z * Z) * World :=
  let fs := files w in
  if (String.length filename =? 0)%nat
  then (Failure ("Image filename is empty." +:+ nl), w)
  else if has_extension filename ".tif" || has_extension filename ".tiff"
  then (ReadTiffImageSize fs filename, w)
  else if has_extension filename ".pgm" then (ReadPgmImageSize fs filename, w)
  else if has_extension filename ".ppm" then (ReadPpmImageSize fs filename, w)
  else if has_extension filename ".jpg" || has_extension filename ".jpeg"
  then (ReadJpgImageSize fs filename, w)
  else if has_extension filename ".bmp" then (ReadBmpImageSize fs filename, w)
  else
    match find_candidate fs filename (extension w) 0 (Z.to_nat N_EXTENSIONS) with
    | None => (Failure (cannot_find_image filename), w)
    | Some (k, fn) =>
        match size_reader k fs fn with
        | Failure e => (Failure e, w)
        | Success size =>
            (Success size,
             {| files := fs; extension := k; bitmapExtension := bitmapExtension w |})
        end
    end.

(** [switch (k)] of [ReadImage]; [k] is below 14. *)
Definition image_reader (k : Z) fs (fn : string) : status (list Z * Z * Z) :=
  if k <=? 3 then ReadTiffImage fs fn
  else if k <=? 5 then ReadPgmImage fs fn
  else if k <=? 7 then ReadPpmImage fs fn
  else if k <=? 11 then ReadJpgImage fs fn
  else ReadBmpImage fs fn.

(** The first part of [ReadImage]: the image is decoded into [buffer],
    [iw] and [ih]. *)
Definition ReadImage_decode (w : World) filename : status (list Z * Z * Z) * World :=
  let fs := files w in
  if (String.length filename =? 0)%nat
  then (Failure ("Image filename is empty." +:+ nl), w)
  else if has_extension filename ".tif" || has_extension filename ".tiff"
  then (ReadTiffImage fs filename, w)
  else if has_extension filename ".pgm" then (ReadPgmImage fs filename, w)
  else if has_extension filename ".jpg" || has_extension filename ".jpeg"
  then (ReadJpgImage fs filename, w)
  else if has_extension filename ".bmp" then (ReadBmpImage fs filename, w)
  else
    match find_candidate fs filename (extension w) 0 (Z.to_nat N_EXTENSIONS) with
    | None => (Failure (cannot_find_image filename), w)
    | Some (k, fn) =>
        match image_reader k fs fn with
        | Failure e => (Failure e, w)
        | Success image =>
            (Success image,
             {| files := fs; extension := k; bitmapExtension := bitmapExtension w |})
        end
    end.

(** One row of the requested region: the body of
    [for (y = ymin; y <= ymax; ++y)]. The comparisons that involve
    [xmin] or [xmax] are comparisons of [uint32] values. *)
Definition region_row (buffer : list Z) (iw ih xmin xmax w y : Z) : list Z :=
  let source := drop (Z.to_nat (y * iw + xmin)) buffer in
  if (ih <=? y) || (u32 iw <=? xmin) then replicate (Z.to_nat (size_t_of w)) 0
  else if xmax <? u32 iw then take (Z.to_nat (size_t_of w)) source
  else if u32 w <? u32 (iw - xmin) then take (Z.to_nat (size_t_of w)) source
  else take (Z.to_nat (u32 (iw - xmin))) source
       ++ replicate (Z.to_nat (u32 (xmax - iw + 1))) 0.

(** The second part of [ReadImage]: the requested region is cut out of
    the decoded image. *)
Definition ReadImage_region filename (buffer : list Z) (iw ih : Z)
    (minX maxX minY maxY : Z) : status (list Z * Z * Z) :=
  if (minX <=? 0) && ((maxX <? 0) || (maxX =? iw - 1))
     && (minY <=? 0) && ((maxY <? 0) || (maxY =? ih - 1))
  then Success (buffer, iw, ih)
  else
    let xmin := if minX <? 0 then 0 else u32 minX in
    let xmax := if maxX <? 0 then u32 (iw - 1) else u32 maxX in
    let ymin := if minY <? 0 then 0 else u32 minY in
    let ymax := if maxY <? 0 then u32 (ih - 1) else u32 maxY in
    let w := s32 (u32 (xmax - xmin + 1)) in
    let h := s32 (u32 (ymax - ymin + 1)) in
    if negb (malloc_ok E (size_t_of (w * h)))
    then Failure ("Could not allocate enough memory for requested image subregion of "
                  +:+ filename +:+ nl)
    else
      Success (mjoin (region_row buffer iw ih xmin xmax w
                        <$> seqZ ymin (ymax - ymin + 1)), w, h).

Definition ReadImage (w : World) filename (minX maxX minY maxY : Z)
  : status (list Z * Z * Z) * World :=
  match ReadImage_decode w filename with
  | (Failure e, w') => (Failure e, w')
  | (Success (buffer, iw, ih), w') =>
      (ReadImage_region filename buffer iw ih minX maxX minY maxY, w')
  end.

(** ** Image and bitmap writers *)

Definition could_not_open_for_writing filename : string :=
  "Could not open file " +:+ filename +:+ " for writing" +:+ nl.

Definition WriteJpgImage fs filename (buffer : list Z) (width height quality : Z)
  : status unit * gmap string (list Z) :=
  if negb (fopen_w_ok E filename)
  then (Failure (could_not_open_for_writing filename), fs)
  else (Success (), <[filename := jpeg_encode E width height quality buffer]> fs).

(** The header [fprintf(f, "P5\n%d %d\n255\n", width, height)]. *)
Definition pgm_header (width height : Z) : list Z :=
  bytes_of_string "P5" ++ [NL] ++ printf_d width ++ [32] ++ printf_d height
  ++ [NL] ++ bytes_of_string "255" ++ [NL].

(** On the paths that return 0 behind [fwrite] the stream is neither
    flushed nor closed: the file exists and holds what has reached it of
    the bytes written ([reached_file]). Likewise the TIFF file on the
    paths that return 0 behind [TIFFOpen] ([tiff_unfinished]). *)
Definition WriteImage fs filename (pixels : list Z) (width height : Z)
    (compressionMethod : ImageCompression)
  : status unit * gmap string (list Z) :=
  let len := String.length filename in
  if (len <? 5)%nat
  then (Failure ("Image filename is too short: " +:+ filename +:+ nl), fs)
  else if ends_with filename ".tif"
          || (5 <? len)%nat && ends_with filename ".tiff"
  then
    if negb (fopen_w_ok E filename)
    then (Failure (could_not_open_for_writing filename), fs)
    else
      match compressionMethod with
      | UncompressedImage | HDiffDeflateImage =>
          match tiff_encode E width height compressionMethod pixels with
          | None =>
              (Failure ("Could not write to tif file " +:+ filename +:+ nl),
               <[filename := tiff_unfinished E width height compressionMethod
                                pixels]> fs)
          | Some bytes => (Success (), <[filename := bytes]> fs)
          end
      | _ =>
          (Failure ("Unsupported compression method: "
                    +:+ sprintf_d (ImageCompression_int E compressionMethod) +:+ nl),
           <[filename := tiff_unfinished E width height compressionMethod
                            pixels]> fs)
      end
  else if ends_with filename ".pgm"
  then
    if negb (fopen_w_ok E filename)
    then (Failure (could_not_open_for_writing filename), fs)
    else
      let '(data, ok) := fwrite1 (size_t_of (width * height)) pixels in
      let written := pgm_header width height ++ data in
      if negb ok
      then (Failure ("Could not write to file " +:+ filename +:+ nl),
            <[filename := reached_file E written]> fs)
      else (Success (), <[filename := written]> fs)
  else if ends_with filename ".jpg"
  then
    match compressionMethod with
    | JpegQuality95 => WriteJpgImage fs filename pixels width height 95
    | JpegQuality90 => WriteJpgImage fs filename pixels width height 90
    | JpegQuality85 => WriteJpgImage fs filename pixels width height 85
    | JpegQuality80 => WriteJpgImage fs filename pixels width height 80
    | JpegQuality75 => WriteJpgImage fs filename pixels width height 75
    | JpegQuality70 => WriteJpgImage fs filename pixels width height 70
    | _ =>
        (Failure ("Unsupported compression method for jpg output: "
                  +:+ sprintf_d (ImageCompression_int E compressionMethod) +:+ nl),
         fs)
    end
  else (Failure ("Unrecognized file extension for image file " +:+ filename +:+ nl),
        fs).

(** The header [fprintf(f, "P4\n%d %d\n", width, height)]. *)
Definition pbm_header (width height : Z) : list Z :=
  bytes_of_string "P4" ++ [NL] ++ printf_d width ++ [32] ++ printf_d height ++ [NL].

(** [fullFilename]: ".pbm" is appended when the last component of the
    name has no dot. *)
Definition fullFilename filename : string :=
  match strrchr filename ".", strrchr filename "/" with
  | None, _ => filename +:+ ".pbm"
  | Some dotPos, Some slashPos =>
      if (dotPos <? slashPos)%nat then filename +:+ ".pbm" else filename
  | Some _, None => filename
  end.

(** Bytes per line of a bitmap: [(width + 7) >> 3]. In [WriteBitmap] a
    name shorter than the extension it is compared with is compared as
    a whole (the source then reads in front of the buffer). *)
Definition bytes_per_line (width : Z) : Z := Z.shiftr (width + 7) 3.

Definition WriteBitmap fs filename (bitmap : list Z) (width height : Z)
    (compressionMethod : BitmapCompression)
  : status unit * gmap string (list Z) :=
  if (String.length filename <? 1)%nat
  then (Failure ("Bitmap filename is too short: " +:+ filename +:+ nl), fs)
  else
    let full := fullFilename filename in
    let len := String.length full in
    let ibpl := size_t_of (bytes_per_line width) in
    if ends_with full ".pbm"
    then
      if negb (fopen_w_ok E full)
      then (Failure (could_not_open_for_writing full), fs)
      else
        let '(data, ok) := fwrite1 (size_t_of (ibpl * height)) bitmap in
        let written := pbm_header width height ++ data in
        if negb ok
        then (Failure ("Could not write to file " +:+ full +:+ nl),
              <[full := reached_file E written]> fs)
        else (Success (), <[full := written]> fs)
    else if (7 <? len)%nat && ends_with full ".pbm.gz"
    then
      let n := size_t_of (ibpl * height) in
      if negb (fopen_w_ok E full)
      then
        if n =? 0 then (Success (), fs)
        else (Failure ("Could not write to file " +:+ full +:+ nl), fs)
      else
        (Success (),
         <[full := gz_compress E (pbm_header width height
                                  ++ take (Z.to_nat n) bitmap)]> fs)
    else (Failure ("Unrecognized file extension for bitmap file " +:+ full +:+ nl),
          fs).

Definition ReadPbmBitmap fs filename : status (list Z * Z * Z) :=
  match fs !! filename with
  | None => Failure (could_not_open_for_reading filename)
  | Some f =>
      match ReadHeader f with
      | None => Failure ("Mask file not binary pbm: " +:+ filename +:+ nl)
      | Some (tc, iw, ih, _, f) =>
          if negb (tc =? chr "4")
          then Failure ("Mask file not binary pbm: " +:+ filename +:+ nl)
          else
          let iw := s32 iw in
          let ih := s32 ih in
          let ibpl := bytes_per_line iw in
          if negb (malloc_ok E (size_t_of (ih * ibpl)))
          then Failure ("Could not allocate enough memory for image in file "
                        +:+ filename +:+ nl)
          else
          let '(buffer, _) := fread (size_t_of (ih * ibpl)) f in
          if negb (Z.of_nat (length buffer) =? size_t_of (ih * ibpl))
          then Failure ("Image file " +:+ filename +:+ " apparently truncated." +:+ nl)
          else Success (buffer, iw, ih)
      end
  end.

(** The pixel [(x, y)] of a bitmap of the given width:
    [buffer[y*ibpl + (x >> 3)] & (0x80 >> (x & 7))]. *)
Definition bitmap_pixel (buffer : list Z) (width x y : Z) : bool :=
  negb (Z.land (default 0 (buffer !! Z.to_nat (y * bytes_per_line width + Z.shiftr x 3)))
               (Z.shiftr 0x80 (Z.land x 7)) =? 0).

(** ** Maps *)

Definition float_bytes (v : float) : list Z := [fb0 v; fb1 v; fb2 v; fb3 v].

Definition MapElement_bytes (e : MapElement) : list Z :=
  float_bytes (x e) ++ float_bytes (y e) ++ float_bytes (c e).

(** The memory of an array of [MapElement]s. *)
Definition map_bytes (map : list MapElement) : list Z :=
  mjoin (MapElement_bytes <$> map).

(** [fread(ptr, sizeof(MapElement), n, f)]: the complete elements
    obtained, at most [n]. *)
Fixpoint fread_MapElements (n : nat) (f : list Z) : list MapElement :=
  match n, f with
  | S n', x0 :: x1 :: x2 :: x3 :: y0 :: y1 :: y2 :: y3 :: c0 :: c1 :: c2 :: c3 :: r =>
      {| x := Float x0 x1 x2 x3; y := Float y0 y1 y2 y3; c := Float c0 c1 c2 c3 |}
      :: fread_MapElements n' r
  | _, _ => []
  end.












(** The header that the five [fprintf] calls of [WriteMap] produce. As
    in [WriteImage], the stream is left open when [fwrite] returns 0,
    and the file holds what has reached it of the bytes written. *)
Definition map_header (level width height xMin yMin : Z)
    (imageName referenceName : string) : list Z :=
  bytes_of_string "M1" ++ [NL]
  ++ printf_d level ++ [NL]
  ++ printf_d width ++ [32] ++ printf_d height ++ [NL]
  ++ printf_d xMin ++ [32] ++ printf_d yMin ++ [NL]
  ++ bytes_of_string imageName ++ [32] ++ bytes_of_string referenceName ++ [NL].

Definition WriteMap fs filename (map : list MapElement) (level width height : Z)
    (xMin yMin : Z) (imageName referenceName : string)
    (compressionMethod : MapCompression)
  : status unit * gmap string (list Z) :=
  match compressionMethod with
  | UncompressedMap =>
      if negb (fopen_w_ok E filename)
      then (Failure ("Cannot open file " +:+ filename +:+ " for writing" +:+ nl), fs)
      else
        let '(data, ok) :=
          fwrite1 (size_t_of (size_t_of (width * height) * sizeof_MapElement))
                  (map_bytes map) in
        let written := map_header level width height xMin yMin
                         imageName referenceName ++ data in
        if negb ok
        then (Failure ("Could not write to file " +:+ filename +:+ nl),
              <[filename := reached_file E written]> fs)
        else (Success (), <[filename := written]> fs)
  | _ => (Failure ("WriteMap: unsupported compression method" +:+ nl), fs)
  end.

(** ** Notions used in the statements *)







(** The decimal numeral of [n] in ASCII, with a minus sign when [n] is
    negative. *)
Definition decimal (n : Z) : list Z := bytes_of_string (pretty n).

(** The file of a map: the five lines of the header and the bytes of
    the first [width * height] elements of the array. *)
Definition map_file (map : list MapElement) (level width height xMin yMin : Z)
    (imageName referenceName : string) : list Z :=
  bytes_of_string "M1" ++ [NL]
  ++ decimal level ++ [NL]
  ++ decimal width ++ [chr " "] ++ decimal height ++ [NL]
  ++ decimal xMin ++ [chr " "] ++ decimal yMin ++ [NL]
  ++ bytes_of_string imageName ++ [chr " "]
  ++ bytes_of_string referenceName ++ [NL]
  ++ mjoin (MapElement_bytes <$> take (Z.to_nat (width * height)) map).


(** The file of a bitmap: the magic "P4", the dimensions, and the
    [height * ((width + 7) / 8)] bytes [data]. *)
Definition pbm_file (width height : Z) (data : list Z) : list Z :=
  bytes_of_string "P4" ++ [NL] ++ decimal width ++ [chr " "]
  ++ decimal height ++ [NL] ++ data.

(** After [WriteBitmap] the file is the file of the bitmap. *)
Definition writes_pbm_file fs filename (bitmap : list Z) (width height : Z)
    (compressionMethod : BitmapCompression) : Prop :=
  ∃ r fs',
    WriteBitmap fs filename bitmap width height compressionMethod = (r, fs')
    ∧ fs' !! filename
      = Some (pbm_file width height
                (take (Z.to_nat (height * ((width + 7) / 8))) bitmap)).

(** Writing an image to a file and reading the file back as PGM both
    succeed, and the reader returns what was written. *)
Definition pgm_round_trip fs filename (pixels : list Z) (width height : Z)
    (compressionMethod : ImageCompression) : Prop :=
  ∃ fs', WriteImage fs filename pixels width height compressionMethod
         = (Success (), fs')
         ∧ ReadPgmImage fs' filename = Success (pixels, width, height).

(** The bytes that libtiff decodes from the strips of an image, one
    strip after the other. *)
Definition decoded_strips (image : TIFF) : list Z :=
  mjoin ((fun strip => take (Z.to_nat (tif_stripsize image)) (default [] strip))
           <$> tif_strips image).

(** The world after [extension = k]. *)
Definition with_extension (k : Z) (w : World) : World :=
  {| files := files w; extension := k; bitmapExtension := bitmapExtension w |}.

(** The name does not end in one of the image extensions, whatever the
    case of its letters. *)
Definition unrecognized filename : Prop :=
  has_extension filename ".tif" = false ∧ has_extension filename ".tiff" = false
  ∧ has_extension filename ".pgm" = false ∧ has_extension filename ".ppm" = false
  ∧ has_extension filename ".jpg" = false ∧ has_extension filename ".jpeg" = false
  ∧ has_extension filename ".bmp" = false.

(** The reader that belongs to an extension, by the format it names. *)
Definition reader_of_extension (ext : string) fs (fn : string)
  : status (list Z * Z * Z) :=
  if ends_with ext ".tif" || ends_with ext ".tiff" then ReadTiffImage fs fn
  else if ends_with ext ".pgm" then ReadPgmImage fs fn
  else if ends_with ext ".ppm" then ReadPpmImage fs fn
  else if ends_with ext ".jpg" || ends_with ext ".jpeg" then ReadJpgImage fs fn
  else ReadBmpImage fs fn.

Definition size_reader_of_extension (ext : string) fs (fn : string)
  : status (Z * Z) :=
  if ends_with ext ".tif" || ends_with ext ".tiff" then ReadTiffImageSize fs fn
  else if ends_with ext ".pgm" then ReadPgmImageSize fs fn
  else if ends_with ext ".ppm" then ReadPpmImageSize fs fn
  else if ends_with ext ".jpg" || ends_with ext ".jpeg" then ReadJpgImageSize fs fn
  else ReadBmpImageSize fs fn.

(** The extension probed at step [i] of a search that starts from the
    cached index [start]. *)
Definition probed (start i : Z) : option string :=
  extensions !! Z.to_nat ((start + i) mod N_EXTENSIONS).

(** What [ReadImage] and [ReadImageSize] do for a name without a
    recognized extension: the first candidate in cyclic order is read
    with the reader of its extension and its index is cached; without a
    candidate both fail with "Cannot find image file". *)
Definition probes_extensions (w : World) filename (minX maxX minY maxY : Z) : Prop :=
  ((∀ ext, ext ∈ extensions → files w !! (filename +:+ ext) = None) →
   ReadImage w filename minX maxX minY maxY
   = (Failure (cannot_find_image filename), w)
   ∧ ReadImageSize w filename = (Failure (cannot_find_image filename), w))
  ∧ (∀ i ext,
       0 <= i < N_EXTENSIONS →
       probed (extension w) i = Some ext →
       is_Some (files w !! (filename +:+ ext)) →
       (∀ i' ext', 0 <= i' < i → probed (extension w) i' = Some ext' →
                   files w !! (filename +:+ ext') = None) →
       ReadImage w filename minX maxX minY maxY
       = match reader_of_extension ext (files w) (filename +:+ ext) with
         | Failure e => (Failure e, w)
         | Success (buffer, iw, ih) =>
             (ReadImage_region filename buffer iw ih minX maxX minY maxY,
              with_extension ((extension w + i) mod N_EXTENSIONS) w)
         end
       ∧ ReadImageSize w filename
         = match size_reader_of_extension ext (files w) (filename +:+ ext) with
           | Failure e => (Failure e, w)
           | Success size =>
               (Success size, with_extension ((extension w + i) mod N_EXTENSIONS) w)
           end).





(** The padding of a row of an 8-bit BMP file of width [W], and the row
    [r] (counted from the start of the pixel data at [bfOffset]) that
    the file [f] stores with it. *)
Definition bmp_padding (W : Z) : Z := (4 - W mod 4) mod 4.

Definition bmp_stored_row (f : list Z) (bfOffset W r : Z) : list Z :=
  take (Z.to_nat W) (drop (Z.to_nat (bfOffset + r * (W + bmp_padding W))) f).

(** The buffer [b] holds the rows of the file top-down: its row [r] is
    the stored row [H - 1 - r]. *)
Definition top_down_rows (b f : list Z) (bfOffset W H : Z) : Prop :=
  ∀ r, 0 <= r < H →
    take (Z.to_nat W) (drop (Z.to_nat (r * W)) b)
    = bmp_stored_row f bfOffset W (H - 1 - r).

(** ** More notions used in the statements *)

(** What [ReadHeader] skips between two fields of a header: blanks
    (space, tab, newline) and comments, each from a '#' to the end of
    its line. *)
Inductive separator : list Z → Prop :=
| separator_nil : separator []
| separator_blank b s :
    b = 32 ∨ b = 9 ∨ b = NL → separator s → separator (b :: s)
| separator_comment text s :
    NL ∉ text → separator s → separator (chr "#" :: text ++ NL :: s).

(** ** Bitmap readers *)

Definition N_BITMAP_EXTENSIONS : Z := 2.

Definition bitmapExtensions : list string := [ ".pbm"; ".pbm.gz" ]%string.

Definition ReadPbmBitmapSize fs filename : status (Z * Z) :=
  match fs !! filename with
  | None => Failure (could_not_open_for_reading filename)
  | Some f =>
      match ReadHeader f with
      | None => Failure ("Bitmap file not binary pbm: " +:+ filename +:+ nl)
      | Some (tc, iw, ih, _, _) =>
          if negb (tc =? chr "4")
          then Failure ("Bitmap file not binary pbm: " +:+ filename +:+ nl)
          else Success (s32 iw, s32 ih)
      end
  end.

(** The two routines that read through zlib, [ReadPbmgzBitmapSize] and
    [ReadPbmgzBitmap], are parameters: what they return for a file
    system and a file name. *)
Variable ReadPbmgzBitmapSize : gmap string (list Z) → string → status (Z * Z).

Variable ReadPbmgzBitmap : gmap string (list Z) → string → status (list Z * Z * Z).

(** The probing loop of [ReadBitmapSize] and [ReadBitmap] up to the
    first candidate that [stat] finds: the value of [i] at the [break],
    the index [k] and the candidate. [todo] counts the iterations left:
    [N_EXTENSIONS] of them in [ReadBitmapSize], [N_BITMAP_EXTENSIONS] in
    [ReadBitmap]. *)
Fixpoint find_bitmap_candidate fs filename (j i : Z) (todo : nat)
  : option (Z * Z * string) :=
  match todo with
  | O => None
  | S todo' =>
      let k := Z.rem (j + i) N_BITMAP_EXTENSIONS in
      let fn := filename +:+ default ""%string (bitmapExtensions !! Z.to_nat k) in
      match fs !! fn with
      | None => find_bitmap_candidate fs filename j (i + 1) todo'
      | Some _ => Some (i, k, fn)
      end
  end.

Definition cannot_find_bitmap filename : string :=
  "Cannot find bitmap file with basename " +:+ filename +:+ nl.

(** [switch (k)] of [ReadBitmapSize], where [k] is 0 or 1: [case 0] has
    no [break], so that a successful [ReadPbmBitmapSize] is followed by
    the statements of [case 1]. *)
Definition bitmap_size_reader (k : Z) fs (fn : string) : status (Z * Z) :=
  if k =? 0
  then match ReadPbmBitmapSize fs fn with
       | Failure e => Failure e
       | Success _ => ReadPbmgzBitmapSize fs fn
       end
  else ReadPbmgzBitmapSize fs fn.

(** The test [if (i >= N_BITMAP_EXTENSIONS)] behind the loop is made
    with the [i] of the [break], or with [N_EXTENSIONS] when there was
    no candidate. *)
Definition ReadBitmapSize (w : World) filename : status (Z * Z) * World :=
  let fs := files w in
  if (String.length filename =? 0)%nat
  then (Failure ("Bitmap filename is empty." +:+ nl), w)
  else if has_extension filename ".pbm" then (ReadPbmBitmapSize fs filename, w)
  else if has_extension filename ".pbm.gz" then (ReadPbmgzBitmapSize fs filename, w)
  else
    match find_bitmap_candidate fs filename (bitmapExtension w) 0
            (Z.to_nat N_EXTENSIONS) with
    | None => (Failure (cannot_find_bitmap filename), w)
    | Some (i, k, fn) =>
        match bitmap_size_reader k fs fn with
        | Failure e => (Failure e, w)
        | Success size =>
            let w' := {| files := fs; extension := extension w;
                         bitmapExtension := k |} in
            if N_BITMAP_EXTENSIONS <=? i
            then (Failure (cannot_find_bitmap filename), w')
            else (Success size, w')
        end
    end.

(** [switch (k)] of [ReadBitmap], where [k] is 0 or 1. *)
Definition bitmap_reader (k : Z) fs (fn : string) : status (list Z * Z * Z) :=
  if k =? 0 then ReadPbmBitmap fs fn else ReadPbmgzBitmap fs fn.

(** The first part of [ReadBitmap]: the bitmap is read into [buffer],
    [iw] and [ih]. *)
Definition ReadBitmap_decode (w : World) filename
  : status (list Z * Z * Z) * World :=
  let fs := files w in
  if (String.length filename =? 0)%nat
  then (Failure ("Bitmap filename is empty." +:+ nl), w)
  else if has_extension filename ".pbm" then (ReadPbmBitmap fs filename, w)
  else if has_extension filename ".pbm.gz" then (ReadPbmgzBitmap fs filename, w)
  else
    match find_bitmap_candidate fs filename (bitmapExtension w) 0
            (Z.to_nat N_BITMAP_EXTENSIONS) with
    | None => (Failure (cannot_find_bitmap filename), w)
    | Some (_, k, fn) =>
        match bitmap_reader k fs fn with
        | Failure e => (Failure e, w)
        | Success bitmap =>
            (Success bitmap,
             {| files := fs; extension := extension w; bitmapExtension := k |})
        end
    end.

(** [ptr[(x - xmin) >> 3] |= (0x80 >> ((x - xmin) & 7))] on the row at
    [ptr]; the difference is one of [uint32] values. *)
Definition set_pixel (row : list Z) (xmin x : Z) : list Z :=
  let d := u32 (x - xmin) in
  alter (fun b => Z.lor b (Z.shiftr 0x80 (Z.land d 7))) (Z.to_nat (Z.shiftr d 3)) row.

(** One row of the requested region of a bitmap: the body of
    [for (y = ymin; y < ymax; ++y)] for the value [yu] of the counter,
    which is compared with [ymax] as a [uint32] and used as the [int]
    [y]. Likewise [xu] in the loop [for (x = xmin; x <= xmax; ++x)].
    Bytes that [memcpy] would read behind the buffer are not
    delivered. *)
Definition bitmap_region_row (buffer : list Z) (iw ih xmin xmax rbpl yu : Z)
  : list Z :=
  let y := s32 yu in
  let zeros := replicate (Z.to_nat (size_t_of rbpl)) 0 in
  if ih <=? y then zeros
  else if (xmax <? u32 iw) && (Z.land xmin 7 =? 0)
  then take (Z.to_nat (size_t_of rbpl))
         (drop (Z.to_nat (y * bytes_per_line iw + Z.shiftr xmin 3)) buffer)
  else foldl (fun row xu =>
                if (s32 xu <? iw) && bitmap_pixel buffer iw (s32 xu) y
                then set_pixel row xmin (s32 xu) else row)
         zeros (seqZ xmin (xmax - xmin + 1)).

(** The rows for the counter values [ys] are stored at [ptr], which
    starts at [offset] in the block and advances by [rbpl] per row. *)
Fixpoint fill_bitmap_rows (buffer : list Z) (iw ih xmin xmax rbpl : Z)
    (ys : list Z) (offset : Z) (block : list Z) : list Z :=
  match ys with
  | [] => block
  | yu :: ys' =>
      fill_bitmap_rows buffer iw ih xmin xmax rbpl ys' (offset + rbpl)
        (list_inserts (Z.to_nat offset)
           (bitmap_region_row buffer iw ih xmin xmax rbpl yu) block)
  end.

(** The second part of [ReadBitmap]: the requested region is cut out of
    the bitmap. The block that [malloc(h * rbpl)] returns holds
    indeterminate bytes; the loop over the rows stops before [ymax]. *)
Definition ReadBitmap_region filename (buffer : list Z) (iw ih : Z)
    (minX maxX minY maxY : Z) : status (list Z * Z * Z) :=
  if (minX <=? 0) && ((maxX <? 0) || (maxX =? iw - 1))
     && (minY <=? 0) && ((maxY <? 0) || (maxY =? ih - 1))
  then Success (buffer, iw, ih)
  else
    let xmin := if minX <? 0 then 0 else u32 minX in
    let xmax := if maxX <? 0 then u32 (iw - 1) else u32 maxX in
    let ymin := if minY <? 0 then 0 else u32 minY in
    let ymax := if maxY <? 0 then u32 (ih - 1) else u32 maxY in
    let w := s32 (u32 (xmax - xmin + 1)) in
    let h := s32 (u32 (ymax - ymin + 1)) in
    let rbpl := bytes_per_line w in
    if negb (malloc_ok E (size_t_of (h * rbpl)))
    then Failure ("Could not allocate enough memory for requested bitmap subregion of "
                  +:+ filename +:+ nl)
    else
      Success (fill_bitmap_rows buffer iw ih xmin xmax rbpl
                 (seqZ ymin (ymax - ymin)) 0
                 (resize (Z.to_nat (size_t_of (h * rbpl))) 0 (indeterminate E)),
               w, h).

Definition ReadBitmap (w : World) filename (minX maxX minY maxY : Z)
  : status (list Z * Z * Z) * World :=
  match ReadBitmap_decode w filename with
  | (Failure e, w') => (Failure e, w')
  | (Success (buffer, iw, ih), w') =>
      (ReadBitmap_region filename buffer iw ih minX maxX minY maxY, w')
  end.


(** The world after [bitmapExtension = k]. *)
Definition with_bitmapExtension (k : Z) (w : World) : World :=
  {| files := files w; extension := extension w; bitmapExtension := k |}.

(** A non-empty name that passes neither of the extension tests of
    [ReadBitmapSize] and [ReadBitmap]. *)
Definition bare_bitmap_name filename : Prop :=
  filename ≠ ""%string
  ∧ has_extension filename ".pbm" = false
  ∧ has_extension filename ".pbm.gz" = false.

(** The candidate with the extension of index [k]. *)
Definition bitmap_candidate filename (k : Z) : string :=
  filename +:+ default ""%string (bitmapExtensions !! Z.to_nat k).


(** ** More sample data *)

(** A PGM file of 2 by 3 pixels with a comment in its header. *)
Definition commented_pgm : list Z :=
  [chr "P"; chr "5"] ++ [35; 99; 10] ++ printf_d 2 ++ [32] ++ printf_d 3
  ++ [10] ++ printf_d 255 ++ 10 :: [1; 2; 3; 4; 5; 6].

(** The headers of a BMP file of 1 by 1 pixel with 24 bits per pixel,
    and its pixel. *)
Definition sample_bmp24 : list Z :=
  [66; 77] ++ [58; 0; 0; 0] ++ [0; 0; 0; 0] ++ [54; 0; 0; 0]
  ++ [40; 0; 0; 0] ++ [1; 0; 0; 0] ++ [1; 0; 0; 0] ++ [1; 0] ++ [24; 0]
  ++ [0; 0; 0; 0] ++ [4; 0; 0; 0] ++ [196; 14; 0; 0] ++ [196; 14; 0; 0]
  ++ [0; 0; 0; 0] ++ [0; 0; 0; 0]
  ++ [1; 2; 3; 0].

(** A PBM file of 3 by 2 pixels. *)
Definition sample_pbm : list Z :=
  bytes_of_string "P4" ++ [NL] ++ bytes_of_string "3 2" ++ [NL] ++ [160; 64].

(** Readers through zlib that accept no file. *)
Definition sample_gz_size : gmap string (list Z) → string → status (Z * Z) :=
  fun _ fn => Failure ("Mask file not binary pbm: " +:+ fn +:+ nl).

Definition sample_gz_bitmap
  : gmap string (list Z) → string → status (list Z * Z * Z) :=
  fun _ fn => Failure ("Mask file not binary pbm: " +:+ fn +:+ nl).

(** The world in which the image extension [k] is cached. *)
Definition cached_world (name : string) (f : list Z) (k : Z) : World :=
  {| files := {[ name := f ]}; extension := k; bitmapExtension := 0 |}.

(** * Properties *)

(** ** Characters and strings *)



Lemma bytes_of_string_length s :
  length (bytes_of_string s) = String.length s.
Proof.
  unfold bytes_of_string. rewrite length_fmap.
  induction s; simpl; congruence.
Qed.

(** ** Decimal numbers *)

Lemma is_digit_decimal n : is_digit (48 + n mod 10) = true.
Proof.
  unfold is_digit. pose proof (Z.mod_pos_bound n 10 ltac:(lia)). lia.
Qed.

Lemma decimal_digits_app fuel n acc rest :
  decimal_digits fuel n acc ++ rest = decimal_digits fuel n (acc ++ rest).
Proof.
  revert n acc. induction fuel as [|fuel IH]; intros n acc; simpl; [done|].
  destruct (n / 10 =? 0); [done|]. by rewrite IH.
Qed.

Lemma decimal_digits_head fuel n acc :
  is_digit (cur acc) = true ∨ fuel ≠ O →
  is_digit (cur (decimal_digits fuel n acc)) = true.
Proof.
  revert n acc. induction fuel as [|fuel IH]; intros n acc H; simpl.
  - destruct H; [done | congruence].
  - destruct (n / 10 =? 0).
    + simpl. apply is_digit_decimal.
    + apply IH. left. simpl. apply is_digit_decimal.
Qed.

Lemma decimal_digits_scan fuel n acc :
  0 <= n < 2 ^ Z.of_nat fuel →
  scan_digits 0 (decimal_digits fuel n acc) = scan_digits n acc.
Proof.
  revert n acc. induction fuel as [|fuel IH]; intros n acc Hn.
  - simpl in *. by replace n with 0 by lia.
  - cbn [decimal_digits].
    pose proof (Z.div_mod n 10 ltac:(lia)) as Hdm.
    pose proof (Z.mod_pos_bound n 10 ltac:(lia)) as Hm.
    destruct (n / 10 =? 0) eqn:Hq.
    + cbn [scan_digits]. rewrite is_digit_decimal. f_equal. lia.
    + rewrite IH.
      * cbn [scan_digits]. rewrite is_digit_decimal. f_equal. lia.
      * rewrite Nat2Z.inj_succ, Z.pow_succ_r in Hn by lia.
        split; [apply Z.div_pos; lia|].
        apply Z.div_lt_upper_bound; lia.
Qed.

Lemma print_unsigned_fuel n :
  0 <= n → 0 <= n < 2 ^ Z.of_nat (S (Z.to_nat (Z.log2 n))).
Proof.
  intros Hn. split; [done|].
  rewrite Nat2Z.inj_succ, Z2Nat.id by apply Z.log2_nonneg.
  destruct (Z.eq_dec n 0) as [->|]; [done|].
  apply Z.log2_spec. lia.
Qed.

Lemma scan_digits_stop v s :
  is_digit (cur s) = false → scan_digits v s = (v, s).
Proof. destruct s as [|d s]; simpl; [done|]. by intros ->. Qed.

Lemma scan_digits_print n rest :
  0 <= n → is_digit (cur rest) = false →
  scan_digits 0 (print_unsigned n ++ rest) = (n, rest).
Proof.
  intros Hn Hrest. unfold print_unsigned.
  rewrite decimal_digits_app, decimal_digits_scan by by apply print_unsigned_fuel.
  by apply scan_digits_stop.
Qed.

Lemma print_unsigned_head n rest :
  is_digit (cur (print_unsigned n ++ rest)) = true.
Proof.
  unfold print_unsigned. rewrite decimal_digits_app.
  apply decimal_digits_head. by right.
Qed.






Lemma pretty_N_char_chr x :
  (x < 10)%N → chr (pretty_N_char x) = 48 + Z.of_N x.
Proof.
  intros Hx.
  assert (x = 0 ∨ x = 1 ∨ x = 2 ∨ x = 3 ∨ x = 4 ∨ x = 5 ∨ x = 6 ∨ x = 7
          ∨ x = 8 ∨ x = 9)%N as Hcases by lia.
  destruct Hcases as [->|[->|[->|[->|[->|[->|[->|[->|[->| ->]]]]]]]]]; done.
Qed.

Lemma decimal_digits_pretty fuel n acc :
  0 < n < 2 ^ Z.of_nat fuel →
  decimal_digits fuel n (bytes_of_string acc)
  = bytes_of_string (pretty_N_go (Z.to_N n) acc).
Proof.
  revert n acc. induction fuel as [|fuel IH]; intros n acc Hn.
  { cbn in Hn. lia. }
  cbn [decimal_digits].
  pose proof (Z.div_mod n 10 ltac:(lia)) as Hdm.
  pose proof (Z.mod_pos_bound n 10 ltac:(lia)) as Hm.
  rewrite pretty_N_go_step by lia.
  replace (Z.to_N n `div` 10)%N with (Z.to_N (n / 10))
    by (rewrite Z2N.inj_div by lia; done).
  replace (Z.to_N n `mod` 10)%N with (Z.to_N (n mod 10))
    by (rewrite Z2N.inj_mod by lia; done).
  assert ((48 + n mod 10) :: bytes_of_string acc
          = bytes_of_string (String (pretty_N_char (Z.to_N (n mod 10))) acc)) as ->.
  { unfold bytes_of_string. cbn [list_ascii_of_string fmap list_fmap].
    rewrite pretty_N_char_chr by lia. by rewrite Z2N.id by lia. }
  destruct (Z.eqb_spec (n / 10) 0) as [Hq|Hq].
  - rewrite Hq. done.
  - apply IH. rewrite Nat2Z.inj_succ, Z.pow_succ_r in Hn by lia.
    pose proof (Z.div_pos n 10 ltac:(lia) ltac:(lia)).
    split; [lia|]. apply Z.div_lt_upper_bound; lia.
Qed.

Lemma print_unsigned_pretty p :
  print_unsigned (Z.pos p) = bytes_of_string (pretty (N.pos p)).
Proof.
  unfold print_unsigned.
  change (@nil Z) with (bytes_of_string "").
  rewrite decimal_digits_pretty
    by (pose proof (print_unsigned_fuel (Z.pos p)); lia).
  done.
Qed.

(** [printf("%d")] writes the decimal numeral. *)
Lemma printf_d_decimal n : printf_d n = decimal n.
Proof.
  unfold printf_d, decimal. destruct n as [|p|p].
  - done.
  - apply print_unsigned_pretty.
  - change (Z.neg p <? 0) with true. cbv iota.
    change (- Z.neg p) with (Z.pos p). rewrite print_unsigned_pretty. done.
Qed.


(** ** Words *)





(** ** Maps *)





Lemma fread_MapElements_length n f :
  (length (fread_MapElements n f) <= n)%nat.
Proof.
  revert f. induction n as [|n IH]; intros f; [done|].
  destruct f as [|x0 [|x1 [|x2 [|x3 [|y0 [|y1 [|y2 [|y3 [|c0 [|c1 [|c2 [|c3 f]]]]]]]]]]]];
    cbn [fread_MapElements length]; try lia.
  specialize (IH f). lia.
Qed.


(** ** Machine integers in range *)

Lemma size_t_of_small n : 0 <= n < 2 ^ 64 → size_t_of n = n.
Proof. intros H. unfold size_t_of. by apply Z.mod_small. Qed.

Lemma u32_small n : 0 <= n < 2 ^ 32 → u32 n = n.
Proof. intros H. unfold u32. by apply Z.mod_small. Qed.

Lemma s32_small n : - 2 ^ 31 <= n < 2 ^ 31 → s32 n = n.
Proof. intros H. unfold s32. rewrite Z.mod_small; lia. Qed.

(** ** WriteMap and ReadMap *)






(** ** Messages *)

Lemma string_app_cons ch (a b : string) : String ch a +:+ b = String ch (a +:+ b).
Proof. done. Qed.


Lemma string_app_length (a b : string) :
  String.length (a +:+ b) = (String.length a + String.length b)%nat.
Proof.
  induction a as [|ch a IH]; [done|]. rewrite string_app_cons. simpl. by rewrite IH.
Qed.




(** ** Rejected map files *)



(** ** The scanners consume a prefix of the stream *)

Lemma tl_suffix (s : list Z) : tl s `suffix_of` s.
Proof. destruct s; [done|]. by apply suffix_cons_r. Qed.


Lemma scan_digits_suffix v s : (scan_digits v s).2 `suffix_of` s.
Proof.
  revert v. induction s as [|d s IH]; intros v; simpl; [done|].
  destruct (is_digit d); [by apply suffix_cons_r | done].
Qed.





(** ** ReadMap on rejected files *)





(** ** PNM headers *)

(** Replaces the character constants of the goal by their codes. *)
Ltac eval_chr :=
  repeat match goal with
         | |- context [chr ?a] =>
             let v := eval vm_compute in (chr a) in change (chr a) with v
         end;
  cbn [bytes_of_string list_ascii_of_string fmap list_fmap app];
  repeat match goal with
         | |- context [chr ?a] =>
             let v := eval vm_compute in (chr a) in change (chr a) with v
         end.

Lemma skip_blanks_stop s :
  is_digit (cur s) = true → skip_blanks false s = s.
Proof.
  destruct s as [|d s]; [done|]. cbn [cur skip_blanks]. intros Hd.
  assert (((d =? 32) || (d =? 9) || (d =? NL)) = false) as ->
    by (unfold is_digit, NL in *; lia).
  assert ((d =? chr "#") = false) as ->
    by (unfold is_digit in *; change (chr "#") with 35; lia).
  done.
Qed.

Lemma skip_blanks_blank d s :
  d = 32 ∨ d = 9 ∨ d = NL → skip_blanks false (d :: s) = skip_blanks false s.
Proof.
  intros Hd. cbn [skip_blanks].
  assert (((d =? 32) || (d =? 9) || (d =? NL)) = true) as -> by (unfold NL in *; lia).
  done.
Qed.

Lemma printf_d_nonneg n : 0 <= n → printf_d n = print_unsigned n.
Proof. intros H. unfold printf_d. by assert ((n <? 0) = false) as -> by lia. Qed.

Lemma read_number_printf_d n rest :
  0 <= n → is_digit (cur rest) = false →
  read_number (printf_d n ++ rest) = Some (n, rest).
Proof.
  intros Hn Hrest. unfold read_number. rewrite printf_d_nonneg by done.
  by rewrite print_unsigned_head, scan_digits_print.
Qed.

Lemma skip_blanks_printf_d n rest :
  0 <= n → skip_blanks false (printf_d n ++ rest) = printf_d n ++ rest.
Proof.
  intros Hn. apply skip_blanks_stop. rewrite printf_d_nonneg by done.
  apply print_unsigned_head.
Qed.

(** [ReadHeader] on the header that [WriteImage] writes for a PGM file. *)
Lemma ReadHeader_pgm_header width height data :
  0 <= width < 2 ^ 32 → 0 <= height < 2 ^ 32 →
  ReadHeader (pgm_header width height ++ data)
  = Some (chr "5", width, height, Some 255, data).
Proof.
  intros Hw Hh. unfold ReadHeader, pgm_header.
  rewrite <- !app_assoc. eval_chr.
  cbn -[printf_d skip_blanks read_number u32].
  rewrite skip_blanks_blank, skip_blanks_printf_d by (tauto || lia).
  rewrite read_number_printf_d by (done || lia).
  rewrite skip_blanks_blank, skip_blanks_printf_d by (tauto || lia).
  rewrite read_number_printf_d by (done || lia).
  rewrite skip_blanks_blank by tauto.
  rewrite !u32_small by lia. done.
Qed.

(** [ReadHeader] on the header that [WriteBitmap] writes for a PBM file. *)
Lemma ReadHeader_pbm_header width height data :
  0 <= width < 2 ^ 32 → 0 <= height < 2 ^ 32 →
  ReadHeader (pbm_header width height ++ data)
  = Some (chr "4", width, height, None, data).
Proof.
  intros Hw Hh. unfold ReadHeader, pbm_header.
  rewrite <- !app_assoc. eval_chr.
  cbn -[printf_d skip_blanks read_number u32].
  rewrite skip_blanks_blank, skip_blanks_printf_d by (tauto || lia).
  rewrite read_number_printf_d by (done || lia).
  rewrite skip_blanks_blank, skip_blanks_printf_d by (tauto || lia).
  rewrite read_number_printf_d by (done || lia).
  rewrite !u32_small by lia. done.
Qed.

(** ** File name extensions *)

Lemma tail_from_S k s :
  (S k <= String.length s)%nat → tail_from k s = drop 1 (tail_from (S k) s).
Proof.
  intros H. unfold tail_from. rewrite drop_drop. f_equal. lia.
Qed.

Lemma strcasecmp0_true a b :
  strcasecmp0 a b = true → tolower <$> a = tolower <$> b.
Proof. unfold strcasecmp0. apply bool_decide_eq_true_1. Qed.

(** A name that ends in ".pgm" ends neither in ".tif" nor in ".tiff". *)
Lemma ends_with_pgm_not_tiff filename :
  (5 <= String.length filename)%nat →
  ends_with filename ".pgm" = true →
  ends_with filename ".tif" = false ∧ ends_with filename ".tiff" = false.
Proof.
  unfold ends_with. cbn [String.length]. intros Hlen Hpgm.
  apply strcasecmp0_true in Hpgm.
  split; unfold strcasecmp0; apply bool_decide_eq_false_2; intros Htif.
  - rewrite Hpgm in Htif. by vm_compute in Htif.
  - rewrite tail_from_S, fmap_drop, Htif in Hpgm by done. by vm_compute in Hpgm.
Qed.

(** ** WriteImage and ReadPgmImage *)

Lemma WriteImage_pgm fs filename pixels width height compressionMethod :
  (5 <= String.length filename)%nat →
  ends_with filename ".pgm" = true →
  fopen_w_ok E filename = true →
  0 <= width * height < 2 ^ 64 →
  Z.of_nat (length pixels) = width * height →
  WriteImage fs filename pixels width height compressionMethod
  = if width * height =? 0
    then (Failure ("Could not write to file " +:+ filename +:+ nl),
          <[filename := reached_file E (pgm_header width height)]> fs)
    else (Success (), <[filename := pgm_header width height ++ pixels]> fs).
Proof.
  intros Hlen Hpgm Hopen Hrange Hpix. unfold WriteImage, fwrite1.
  destruct (ends_with_pgm_not_tiff filename Hlen Hpgm) as [-> ->].
  assert ((String.length filename <? 5)%nat = false) as ->
    by by apply Nat.ltb_ge.
  rewrite Hpgm, Hopen, andb_false_r. cbn [orb negb].
  rewrite size_t_of_small, take_ge by lia.
  destruct (Z.eqb_spec (width * height) 0) as [Hz|]; cbn [negb]; [|done].
  assert (pixels = []) as -> by (apply nil_length_inv; lia).
  by rewrite app_nil_r.
Qed.

(** C7, amended. For every buffer of [width] by [height] pixels with
    [width >= 1] and [height >= 1], and every path of at least five
    characters that ends in ".pgm": writing the buffer with [WriteImage]
    succeeds, and reading that file with [ReadPgmImage] succeeds and
    returns the width, the height and a buffer of [width * height]
    bytes equal to the bytes written. *)
Theorem WriteImage_ReadPgmImage_round_trip fs filename pixels width height
    compressionMethod :
  (5 <= String.length filename)%nat →
  ends_with filename ".pgm" = true →
  fopen_w_ok E filename = true →
  malloc_ok E (width * height) = true →
  1 <= width < 2 ^ 31 → 1 <= height < 2 ^ 31 → width * height < 2 ^ 32 →
  Z.of_nat (length pixels) = width * height →
  pgm_round_trip fs filename pixels width height compressionMethod.
Proof.
  intros Hlen Hpgm Hopen Hmem Hw Hh Hrange Hpix. eexists. split.
  - rewrite WriteImage_pgm by (done || lia).
    by assert ((width * height =? 0) = false) as -> by lia.
  - unfold ReadPgmImage, fread. rewrite lookup_insert_eq.
    rewrite ReadHeader_pgm_header by lia.
    rewrite u32_small, Hmem by lia. cbn [negb].
    rewrite take_ge by lia. rewrite Hpix, Z.eqb_refl. cbn [negb].
    by rewrite !s32_small by lia.
Qed.

(** ** Names of bitmap files *)

Lemma list_ascii_of_string_length s :
  length (list_ascii_of_string s) = String.length s.
Proof. induction s; simpl; congruence. Qed.

Lemma strrchr_from_bounds ch l i p :
  strrchr_from ch l i = Some p → (i <= p < i + length l)%nat.
Proof.
  revert i. induction l as [|a l IH]; intros i; simpl; [done|].
  destruct (strrchr_from ch l (S i)) as [q|] eqn:Hq.
  - intros ?; simplify_eq. apply IH in Hq. lia.
  - destruct (Ascii.eqb a ch); intros ?; simplify_eq. lia.
Qed.

Lemma strrchr_from_app ch l1 l2 i :
  strrchr_from ch (l1 ++ l2) i
  = match strrchr_from ch l2 (i + length l1) with
    | Some p => Some p
    | None => strrchr_from ch l1 i
    end.
Proof.
  revert i. induction l1 as [|a l1 IH]; intros i; simpl.
  - rewrite Nat.add_0_r. by destruct (strrchr_from ch l2 i).
  - rewrite IH. replace (S i + length l1)%nat with (i + S (length l1))%nat by lia.
    by destruct (strrchr_from ch l2 (i + S (length l1))).
Qed.

Lemma tolower_dot a : tolower a = "."%char → a = "."%char.
Proof.
  destruct a as [[] [] [] [] [] [] [] []]; vm_compute; intros H;
    first [done | discriminate H].
Qed.

(** A name that ends in ".pbm" is used as it is. *)
Lemma fullFilename_pbm filename :
  ends_with filename ".pbm" = true → fullFilename filename = filename.
Proof.
  unfold ends_with, tail_from. cbn [String.length]. intros H.
  apply strcasecmp0_true in H.
  pose proof (take_drop (String.length filename - 4) (list_ascii_of_string filename))
    as Hsplit.
  destruct (drop (String.length filename - 4) (list_ascii_of_string filename))
    as [|a [|b [|d [|e [|]]]]]; try done.
  cbn in H. injection H as Ha Hb Hd He.
  apply tolower_dot in Ha. subst a.
  set (pre := take (String.length filename - 4) (list_ascii_of_string filename)) in *.
  assert (∀ ch j, (ch = "."%char ∨ ch = "/"%char) →
            strrchr_from ch ["."%char; b; d; e] j
            = if Ascii.eqb "." ch then Some j else None) as Hlast.
  { intros ch j Hch. cbn [strrchr_from].
    assert (Ascii.eqb e ch = false) as ->.
    { apply Ascii.eqb_neq. intros ->. by destruct Hch as [-> | ->]. }
    assert (Ascii.eqb d ch = false) as ->.
    { apply Ascii.eqb_neq. intros ->. by destruct Hch as [-> | ->]. }
    assert (Ascii.eqb b ch = false) as ->.
    { apply Ascii.eqb_neq. intros ->. by destruct Hch as [-> | ->]. }
    done. }
  unfold fullFilename, strrchr. rewrite <- Hsplit, !strrchr_from_app.
  rewrite !Hlast by tauto. cbn [Ascii.eqb Bool.eqb].
  change (Ascii.eqb "." "/") with false. cbv iota.
  destruct (strrchr_from "/" pre 0) as [p|] eqn:Hp; [|done].
  apply strrchr_from_bounds in Hp.
  by assert ((0 + length pre <? p)%nat = false) as -> by (apply Nat.ltb_ge; lia).
Qed.

(** ** Bitmaps *)

Lemma bytes_per_line_div width : bytes_per_line width = (width + 7) / 8.
Proof. unfold bytes_per_line. by rewrite Z.shiftr_div_pow2. Qed.

(** The mask [0x80 >> (x & 7)] selects bit [7 - x mod 8]: the leftmost
    pixel of a byte is its most significant bit. *)
Lemma msb_first_mask b x :
  0 <= x →
  negb (Z.land b (Z.shiftr 0x80 (Z.land x 7)) =? 0) = Z.testbit b (7 - x mod 8).
Proof.
  intros Hx. change 7 with (Z.ones 3) at 1. rewrite Z.land_ones by lia.
  change (2 ^ 3) with 8.
  pose proof (Z.mod_pos_bound x 8 ltac:(lia)) as Hm.
  assert (Z.shiftr 128 (x mod 8) = 2 ^ (7 - x mod 8)) as ->.
  { rewrite Z.shiftr_div_pow2 by lia. change 128 with (2 ^ 7).
    rewrite <- Z.pow_sub_r by lia. done. }
  destruct (Z.testbit b (7 - x mod 8)) eqn:Hbit.
  - apply negb_true_iff, Z.eqb_neq. intros H0.
    assert (Z.testbit (Z.land b (2 ^ (7 - x mod 8))) (7 - x mod 8) = false) as Ht
      by (rewrite H0; apply Z.bits_0).
    rewrite Z.land_spec, Hbit, Z.pow2_bits_true in Ht by lia. done.
  - apply negb_false_iff, Z.eqb_eq. apply Z.bits_inj'. intros n Hn.
    rewrite Z.land_spec, Z.bits_0.
    destruct (Z.eq_dec n (7 - x mod 8)) as [->|Hne].
    + by rewrite Hbit.
    + rewrite Z.pow2_bits_false by lia. apply andb_false_r.
Qed.

Lemma ends_with_length filename (ext : string) :
  ends_with filename ext = true → (String.length ext <= String.length filename)%nat.
Proof.
  unfold ends_with, tail_from. intros H. apply strcasecmp0_true in H.
  apply (f_equal length) in H.
  rewrite !length_fmap, length_drop, !list_ascii_of_string_length in H. lia.
Qed.

Lemma WriteBitmap_pbm fs filename bitmap width height compressionMethod :
  ends_with filename ".pbm" = true →
  fopen_w_ok E filename = true →
  0 <= width < 2 ^ 31 - 7 → 0 <= height < 2 ^ 31 →
  height * ((width + 7) / 8) <= Z.of_nat (length bitmap) →
  WriteBitmap fs filename bitmap width height compressionMethod
  = if height * ((width + 7) / 8) =? 0
    then (Failure ("Could not write to file " +:+ filename +:+ nl),
          <[filename := reached_file E (pbm_header width height)]> fs)
    else (Success (),
          <[filename := pbm_header width height
                        ++ take (Z.to_nat (height * ((width + 7) / 8))) bitmap]> fs).
Proof.
  intros Hpbm Hopen Hw Hh Hlen. unfold WriteBitmap, fwrite1.
  pose proof (ends_with_length _ _ Hpbm) as Hl. cbn [String.length] in Hl.
  assert ((String.length filename <? 1)%nat = false) as ->
    by (apply Nat.ltb_ge; lia).
  rewrite fullFilename_pbm, Hpbm, Hopen by done. cbn [negb].
  rewrite bytes_per_line_div.
  assert (0 <= (width + 7) / 8 < 2 ^ 31)
    by (split; [apply Z.div_pos|apply Z.div_lt_upper_bound]; lia).
  rewrite (size_t_of_small ((width + 7) / 8)) by lia.
  rewrite size_t_of_small by nia.
  replace ((width + 7) / 8 * height) with (height * ((width + 7) / 8)) by lia.
  destruct (Z.eqb_spec (height * ((width + 7) / 8)) 0) as [->|]; cbn [negb]; [|done].
  by rewrite take_0, app_nil_r.
Qed.

Lemma pbm_header_decimal width height data :
  pbm_header width height ++ data = pbm_file width height data.
Proof.
  unfold pbm_header, pbm_file. by rewrite !printf_d_decimal, <- !app_assoc.
Qed.

(** C8, amended. For every bitmap of [width] by [height] pixels with
    [width >= 1] and [height >= 1] (a buffer of at least
    [height * ((width + 7) / 8)] bytes), [WriteBitmap] on a path that
    ends in ".pbm" returns 1 and leaves in the file the magic "P4",
    the dimensions in decimal, and then exactly
    [height * ((width + 7) / 8)] data bytes: the first bytes of the
    buffer, in which the pixel [(x, y)] is bit [7 - x mod 8] (the most
    significant bit first) of the byte at
    [y * ((width + 7) / 8) + x / 8]. And [ReadPbmBitmap] on a P4 file of
    those dimensions returns exactly the first
    [height * ((width + 7) / 8)] bytes behind the header, and returns 0
    when the file holds fewer. *)
Theorem WriteBitmap_ReadPbmBitmap_format fs filename bitmap width height
    compressionMethod :
  0 <= width < 2 ^ 31 - 7 → 0 <= height < 2 ^ 31 →
  height * ((width + 7) / 8) < 2 ^ 31 →
  (ends_with filename ".pbm" = true →
   fopen_w_ok E filename = true →
   1 <= width → 1 <= height →
   height * ((width + 7) / 8) <= Z.of_nat (length bitmap) →
   writes_pbm_file fs filename bitmap width height compressionMethod
   ∧ (WriteBitmap fs filename bitmap width height compressionMethod).1 = Success ()
   ∧ Z.of_nat (length (take (Z.to_nat (height * ((width + 7) / 8))) bitmap))
     = height * ((width + 7) / 8)
   ∧ ∀ x y, 0 <= x < width → 0 <= y < height →
       bitmap_pixel bitmap width x y
       = Z.testbit
           (default 0 (take (Z.to_nat (height * ((width + 7) / 8))) bitmap
                       !! Z.to_nat (y * ((width + 7) / 8) + x / 8)))
           (7 - x mod 8))
  ∧ (∀ fs2 name data2,
       fs2 !! name = Some (pbm_file width height data2) →
       malloc_ok E (height * ((width + 7) / 8)) = true →
       ReadPbmBitmap fs2 name
       = if Z.of_nat (length data2) <? height * ((width + 7) / 8)
         then Failure ("Image file " +:+ name +:+ " apparently truncated." +:+ nl)
         else Success (take (Z.to_nat (height * ((width + 7) / 8))) data2,
                       width, height)).
Proof.
  intros Hw Hh Hsize.
  assert (0 <= (width + 7) / 8) by (apply Z.div_pos; lia).
  split.
  - intros Hpbm Hopen Hw1 Hh1 Hlen.
    assert (1 <= (width + 7) / 8) by (apply Z.div_le_lower_bound; lia).
    unfold writes_pbm_file.
    rewrite WriteBitmap_pbm by (done || lia).
    assert ((height * ((width + 7) / 8) =? 0) = false) as -> by nia.
    split_and!.
    + eexists _, _. split; [done|].
      rewrite lookup_insert_eq. f_equal. apply pbm_header_decimal.
    + done.
    + rewrite length_take. lia.
    + intros x0 y0 Hx Hy. unfold bitmap_pixel.
      rewrite msb_first_mask, bytes_per_line_div, Z.shiftr_div_pow2 by lia.
      change (2 ^ 3) with 8.
      rewrite lookup_take_lt; [done|].
      assert (x0 / 8 < (width + 7) / 8).
      { apply Z.div_lt_upper_bound; [lia|].
        pose proof (Z.div_mod (width + 7) 8 ltac:(lia)).
        pose proof (Z.mod_pos_bound (width + 7) 8 ltac:(lia)). lia. }
      pose proof (Z.div_pos x0 8 ltac:(lia) ltac:(lia)). nia.
  - intros fs2 name data2 Hfile Hmem. unfold ReadPbmBitmap, fread.
    rewrite Hfile, <- pbm_header_decimal.
    rewrite ReadHeader_pbm_header by lia.
    rewrite Z.eqb_refl. cbn [negb].
    rewrite !s32_small, bytes_per_line_div by lia.
    rewrite size_t_of_small, Hmem by nia. cbn [negb].
    rewrite length_take.
    assert (0 <= height * ((width + 7) / 8)) as Hn by nia.
    revert Hn. generalize (height * ((width + 7) / 8)). intros n Hn.
    destruct (Z.ltb_spec (Z.of_nat (length data2)) n).
    + by assert ((Z.of_nat (Z.to_nat n `min` length data2) =? n) = false) as ->
        by (apply Z.eqb_neq; lia).
    + by assert ((Z.of_nat (Z.to_nat n `min` length data2) =? n) = true) as ->
        by (apply Z.eqb_eq; lia).
Qed.

(** ** TIFF images *)

Lemma complement_bits b k :
  0 <= k < 8 → Z.testbit (complement b) k = negb (Z.testbit b k).
Proof.
  intros Hk. unfold complement. change 256 with (2 ^ 8).
  rewrite Z.mod_pow2_bits_low, Z.lnot_spec by lia. done.
Qed.

Lemma list_inserts_prefix (done got rest : list Z) :
  (length got <= length rest)%nat →
  list_inserts (length done) got (done ++ rest)
  = done ++ got ++ drop (length got) rest.
Proof.
  intros Hfit.
  rewrite <- (take_drop (length got) rest) at 1.
  rewrite <- (Nat.add_0_r (length done)), list_inserts_app_r.
  rewrite list_inserts_0_r; [done|]. rewrite length_take. lia.
Qed.

Lemma read_strips_layout filename stripSize strips cnt done rest raw decoded :
  decoded
  = mjoin ((fun strip => take (Z.to_nat stripSize) (default [] strip)) <$> strips) →
  read_strips filename stripSize strips cnt (Z.of_nat (length done)) (done ++ rest)
  = Success raw →
  (length decoded <= length rest)%nat →
  raw = done ++ decoded ++ drop (length decoded) rest.
Proof.
  revert cnt done rest decoded. induction strips as [|[data|] strips IH];
    intros cnt done rest decoded ->; csimpl.
  - intros ? _. simplify_eq. by rewrite drop_0.
  - rewrite length_app. intros Hread Hfit.
    rewrite Nat2Z.id, list_inserts_prefix in Hread by lia.
    rewrite <- Nat2Z.inj_add, <- length_app, app_assoc in Hread.
    eapply IH in Hread; [|done|rewrite length_drop; lia].
    rewrite Hread, <- !app_assoc, drop_drop. done.
  - done.
Qed.

Lemma decoded_strips_length image :
  0 <= tif_stripsize image →
  Z.of_nat (length (decoded_strips image))
  <= Z.of_nat (length (tif_strips image)) * tif_stripsize image.
Proof.
  intros Hs. unfold decoded_strips.
  induction (tif_strips image) as [|strip strips IH]; [done|].
  csimpl. rewrite length_app, length_take. cbn [length]. lia.
Qed.

(** C9. For every TIFF file that [ReadTiffImage] accepts: the buffer
    returned is the buffer into which the strips were decoded, with
    every byte replaced by its bitwise complement when the photometric
    tag is defined and is not min-is-black, and unchanged when the tag
    is min-is-black. *)
Theorem ReadTiffImage_photometric fs filename f image b w h :
  fs !! filename = Some f → TIFFOpen E f = Some image →
  0 <= tif_stripsize image →
  Z.of_nat (length (tif_strips image)) * tif_stripsize image < 2 ^ 64 →
  ReadTiffImage fs filename = Success (b, w, h) →
  ∃ photo raw,
    tif_photometric image = Some photo
    ∧ take (length (decoded_strips image)) raw = decoded_strips image
    ∧ (photo ≠ PHOTOMETRIC_MINISBLACK →
       b = complement <$> raw
       ∧ take (length (decoded_strips image)) b
         = complement <$> decoded_strips image
       ∧ ∀ i v r k, b !! i = Some v → raw !! i = Some r → 0 <= k < 8 →
           Z.testbit v k = negb (Z.testbit r k))
    ∧ (photo = PHOTOMETRIC_MINISBLACK →
       b = raw ∧ take (length (decoded_strips image)) b = decoded_strips image).
Proof.
  intros Hf Hopen Hsize Hmax. unfold ReadTiffImage. rewrite Hf. cbn [mbind option_bind].
  rewrite Hopen.
  destruct (negb (defined _) || _); [done|].
  destruct (defined _ && _); [done|].
  destruct (tif_imagewidth image) as [iw|]; [|done].
  destruct (tif_imagelength image) as [ih|]; [|done].
  destruct (negb (malloc_ok E _)); [done|].
  destruct (read_strips _ _ _ _ _ _) as [raw|] eqn:Hread; [|done].
  cbn [mbind status_bind].
  destruct (tif_photometric image) as [photo|]; [|done].
  intros Hret. exists photo, raw. split; [done|].
  pose proof (decoded_strips_length image Hsize) as Hlen.
  eapply (read_strips_layout _ _ _ _ [] _ _ (decoded_strips image)) in Hread;
    [|done|].
  - assert (take (length (decoded_strips image)) raw = decoded_strips image)
      as Htake by (cbn [app] in Hread; by rewrite Hread, take_app_length).
    clear Hread. split; [done|split].
    + intros Hphoto.
      assert ((photo =? PHOTOMETRIC_MINISBLACK) = false) as Hp by lia.
      rewrite Hp in Hret. cbn [negb] in Hret. simplify_eq.
      split; [done|]. split; [by rewrite <- fmap_take, Htake|].
      intros i v r k Hv Hr Hk.
      rewrite list_lookup_fmap, Hr in Hv. simplify_eq/=.
      by apply complement_bits.
    + intros ->. rewrite Z.eqb_refl in Hret. cbn [negb] in Hret. by simplify_eq.
  - rewrite length_resize, size_t_of_small by lia. lia.
Qed.

(** ** Probing the extensions *)

Lemma find_candidate_none fs filename j i0 todo :
  (∀ i, i0 <= i < i0 + Z.of_nat todo →
        fs !! (filename +:+ default ""%string
                 (extensions !! Z.to_nat (Z.rem (j + i) N_EXTENSIONS))) = None) →
  find_candidate fs filename j i0 todo = None.
Proof.
  revert i0. induction todo as [|todo IH]; intros i0 Hnone; [done|].
  cbn [find_candidate]. rewrite Hnone by lia. apply IH. intros i Hi.
  apply Hnone. lia.
Qed.

Lemma find_candidate_first fs filename j i0 todo i :
  i0 <= i < i0 + Z.of_nat todo →
  (∀ i', i0 <= i' < i →
         fs !! (filename +:+ default ""%string
                  (extensions !! Z.to_nat (Z.rem (j + i') N_EXTENSIONS))) = None) →
  is_Some (fs !! (filename +:+ default ""%string
                    (extensions !! Z.to_nat (Z.rem (j + i) N_EXTENSIONS)))) →
  find_candidate fs filename j i0 todo
  = Some (Z.rem (j + i) N_EXTENSIONS,
          filename +:+ default ""%string
            (extensions !! Z.to_nat (Z.rem (j + i) N_EXTENSIONS))).
Proof.
  revert i0. induction todo as [|todo IH]; intros i0 Hi Hnone [f Hf]; [lia|].
  cbn [find_candidate].
  destruct (Z.eq_dec i0 i) as [->|Hne].
  - by rewrite Hf.
  - rewrite Hnone by lia. apply IH; [lia| |by eexists].
    intros i' Hi'. apply Hnone. lia.
Qed.

Lemma probed_is_Some start i :
  0 <= start → 0 <= i → is_Some (probed start i).
Proof.
  intros Hs Hi. unfold probed. apply lookup_lt_is_Some.
  pose proof (Z.mod_pos_bound (start + i) N_EXTENSIONS ltac:(done)) as Hm.
  change (length extensions) with 14%nat. unfold N_EXTENSIONS in *. lia.
Qed.

(** The cases of the two [switch] statements agree with the table of
    the extensions. *)
Lemma switch_agrees_with_extensions k ext fs fn :
  0 <= k < N_EXTENSIONS → extensions !! Z.to_nat k = Some ext →
  image_reader k fs fn = reader_of_extension ext fs fn
  ∧ size_reader k fs fn = size_reader_of_extension ext fs fn.
Proof.
  unfold N_EXTENSIONS. intros Hk Hext.
  assert (k = 0 ∨ k = 1 ∨ k = 2 ∨ k = 3 ∨ k = 4 ∨ k = 5 ∨ k = 6 ∨ k = 7
          ∨ k = 8 ∨ k = 9 ∨ k = 10 ∨ k = 11 ∨ k = 12 ∨ k = 13) as Hcases by lia.
  unfold image_reader, reader_of_extension, size_reader, size_reader_of_extension.
  destruct Hcases as [->|[->|[->|[->|[->|[->|[->|[->|[->|[->|[->|[->|[->| ->]]]]]]]]]]]]];
    vm_compute in Hext; simplify_eq;
    repeat match goal with
           | |- context [ends_with ?a ?b] =>
               let v := eval vm_compute in (ends_with a b) in
               change (ends_with a b) with v
           end;
    done.
Qed.

Lemma find_candidate_range fs filename j i todo k fn :
  0 <= j → 0 <= i →
  find_candidate fs filename j i todo = Some (k, fn) → 0 <= k < N_EXTENSIONS.
Proof.
  revert i. induction todo as [|todo IH]; intros i Hj Hi; [done|].
  cbn [find_candidate]. destruct (fs !! _).
  - intros ?; simplify_eq. apply Z.rem_bound_pos; unfold N_EXTENSIONS; lia.
  - apply IH; lia.
Qed.

(** The cached index stays an index of the table. *)
Lemma ReadImage_extension_in_range w filename minX maxX minY maxY :
  0 <= extension w < N_EXTENSIONS →
  0 <= extension (ReadImage w filename minX maxX minY maxY).2 < N_EXTENSIONS
  ∧ 0 <= extension (ReadImageSize w filename).2 < N_EXTENSIONS.
Proof.
  intros Hext. unfold ReadImage, ReadImage_decode, ReadImageSize. split.
  - repeat (case_match; simplify_eq; try done).
    cbn. eapply find_candidate_range; [| |eassumption]; lia.
  - repeat (case_match; simplify_eq; try done).
    cbn. eapply find_candidate_range; [| |eassumption]; lia.
Qed.

Lemma string_length_nonempty (s : string) :
  s ≠ ""%string → (String.length s =? 0)%nat = false.
Proof. by destruct s. Qed.

(** C6, amended. For every non-empty path whose name does not end in a
    recognized image extension, [ReadImage] and [ReadImageSize] probe
    the 14 extensions appended to the path in cyclic order from the
    cached index, read the first candidate that exists with the reader
    of its extension, cache its index when that reader succeeds, and
    return 0 with "Cannot find image file" when no candidate exists. *)
Theorem ReadImage_probes_extensions w filename minX maxX minY maxY :
  filename ≠ ""%string → unrecognized filename →
  0 <= extension w < N_EXTENSIONS →
  probes_extensions w filename minX maxX minY maxY.
Proof.
  intros Hne (Htif & Htiff & Hpgm & Hppm & Hjpg & Hjpeg & Hbmp) Hext.
  assert (∀ i, 0 <= i →
            Z.rem (extension w + i) N_EXTENSIONS = (extension w + i) mod N_EXTENSIONS)
    as Hrem by (intros i Hi; apply Z.rem_mod_nonneg; unfold N_EXTENSIONS; lia).
  unfold probes_extensions, ReadImage, ReadImage_decode, ReadImageSize.
  rewrite string_length_nonempty, Htif, Htiff, Hpgm, Hppm, Hjpg, Hjpeg, Hbmp by done.
  cbn [orb]. split.
  - intros Hnone. rewrite find_candidate_none; [done|].
    intros i Hi. rewrite Hrem by lia.
    destruct (probed_is_Some (extension w) i) as [ext Hprobed]; [lia..|].
    unfold probed in Hprobed. rewrite Hprobed. cbn [default].
    apply Hnone. by eapply list_elem_of_lookup_2.
  - intros i ext Hi Hprobed Hexists Hfirst.
    rewrite (find_candidate_first _ _ _ _ _ i).
    + rewrite Hrem by lia. unfold probed in Hprobed. rewrite Hprobed. cbn [default].
      pose proof (Z.mod_pos_bound (extension w + i) N_EXTENSIONS ltac:(done)) as Hk.
      change (id ext) with ext.
      destruct (switch_agrees_with_extensions _ _ (files w) (filename +:+ ext)
                  Hk Hprobed) as [-> ->].
      split.
      * by destruct (reader_of_extension _ _ _) as [[[buffer iw] ih]|].
      * by destruct (size_reader_of_extension _ _ _).
    + unfold N_EXTENSIONS in *. lia.
    + intros i' Hi'. rewrite Hrem by lia.
      destruct (probed_is_Some (extension w) i') as [ext' Hprobed']; [lia..|].
      specialize (Hfirst i' ext' Hi' Hprobed').
      unfold probed in Hprobed'. by rewrite Hprobed'.
    + rewrite Hrem by lia. unfold probed in Hprobed. by rewrite Hprobed.
Qed.

(** A name that ends in ".ppm" passes none of the extension tests of
    [ReadImage], which therefore probes for candidates. *)
Lemma has_extension_ppm_only filename :
  has_extension filename ".ppm" = true →
  has_extension filename ".tif" = false ∧ has_extension filename ".tiff" = false
  ∧ has_extension filename ".pgm" = false
  ∧ has_extension filename ".jpg" = false ∧ has_extension filename ".jpeg" = false
  ∧ has_extension filename ".bmp" = false.
Proof.
  unfold has_extension, ends_with. cbn [String.length].
  intros [Hlen Hppm]%andb_true_iff.
  apply Nat.ltb_lt in Hlen. apply strcasecmp0_true in Hppm.
  assert (∀ ext : list ascii,
            tolower <$> ext ≠ tolower <$> list_ascii_of_string ".ppm" →
            strcasecmp0 (tail_from 4 filename) ext = false) as H4.
  { intros ext Hext. apply bool_decide_eq_false_2. by rewrite Hppm. }
  assert (∀ ext : list ascii,
            drop 1 (tolower <$> ext) ≠ tolower <$> list_ascii_of_string ".ppm" →
            strcasecmp0 (tail_from 5 filename) ext = false) as H5.
  { intros ext Hext. apply bool_decide_eq_false_2. intros H.
    rewrite tail_from_S, fmap_drop, H in Hppm by lia. done. }
  repeat split; rewrite ?H4, ?H5, ?andb_false_r; done.
Qed.

Lemma ReadImage_ppm_probes w filename minX maxX minY maxY :
  has_extension filename ".ppm" = true →
  (∀ ext, ext ∈ extensions → files w !! (filename +:+ ext) = None) →
  0 <= extension w < N_EXTENSIONS →
  ReadImage w filename minX maxX minY maxY
  = (Failure (cannot_find_image filename), w).
Proof.
  intros Hppm Hnone Hext.
  destruct (has_extension_ppm_only filename Hppm)
    as (Htif & Htiff & Hpgm & Hjpg & Hjpeg & Hbmp).
  unfold ReadImage, ReadImage_decode.
  assert ((String.length filename =? 0)%nat = false) as ->.
  { unfold has_extension in Hppm. apply andb_true_iff in Hppm as [Hlen _].
    apply Nat.ltb_lt in Hlen. apply Nat.eqb_neq. lia. }
  rewrite Htif, Htiff, Hpgm, Hjpg, Hjpeg, Hbmp. cbn [orb].
  rewrite find_candidate_none; [done|].
  intros i Hi. rewrite Z.rem_mod_nonneg by (unfold N_EXTENSIONS; lia).
  destruct (probed_is_Some (extension w) i) as [ext Hprobed]; [lia..|].
  unfold probed in Hprobed. rewrite Hprobed. cbn [default].
  apply Hnone. by eapply list_elem_of_lookup_2.
Qed.

(** ** Regions of an image *)

Section Region.

Variables (buffer : list Z) (iw ih xmin xmax : Z).
Hypothesis Hiw : 1 <= iw.
Hypothesis Hih : 1 <= ih.
Hypothesis Hsize : iw * ih < 2 ^ 31.
Hypothesis Hbuffer : iw * ih <= Z.of_nat (length buffer).
Hypothesis Hx : 0 <= xmin <= xmax.
Hypothesis Hxmax : xmax < 2 ^ 31 - 1.



End Region.



(** ** BMP rows *)

(** For 8 bits per pixel the row size that [ReadBmpImage] computes is
    the width rounded down to a multiple of four. *)
Lemma rowsize_8bit W : 0 <= W < 2 ^ 28 → rowsize 8 W = W - W mod 4.
Proof.
  intros HW. unfold rowsize, cdiv. rewrite s32_small by lia.
  rewrite Z.quot_div_nonneg by lia.
  change 32 with (8 * 4). rewrite Z.div_mul_cancel_l by lia.
  pose proof (Z.div_mod W 4 ltac:(lia)). lia.
Qed.

(** The stride of the rows that the file format prescribes is the width
    rounded up to a multiple of four; the two agree only when the width
    is a multiple of four. *)
Lemma rowsize_8bit_stride W :
  0 <= W < 2 ^ 28 → (rowsize 8 W = W + bmp_padding W ↔ W mod 4 = 0).
Proof.
  intros HW. rewrite rowsize_8bit by done. unfold bmp_padding.
  pose proof (Z.mod_pos_bound W 4 ltac:(lia)) as Hm.
  split.
  - intros H. pose proof (Z.mod_pos_bound (4 - W mod 4) 4 ltac:(lia)). lia.
  - intros ->. done.
Qed.

(** What the row loop of [ReadBmpImage] delivers: row [r] of the buffer
    holds the [W] bytes of the file at distance [(i - 1 - r) * rs] from
    the start position, where [rs] is the row size that the routine
    computed. *)
Lemma read_bmp_rows_spec filename f W rs (i : nat) pos b0 b :
  0 <= W < 2 ^ 64 → 0 <= rs → 0 <= pos →
  read_bmp_rows filename f W rs i pos b0 = Success b →
  ∃ rows,
    b = rows ++ b0
    ∧ length rows = (i * Z.to_nat W)%nat
    ∧ ∀ r, (r < i)%nat →
        take (Z.to_nat W) (drop (r * Z.to_nat W) rows)
        = take (Z.to_nat W)
            (drop (Z.to_nat (pos + Z.of_nat (i - 1 - r) * rs)) f).
Proof.
  intros HW Hrs. revert pos b0.
  induction i as [|i IH]; intros pos b0 Hpos; cbn [read_bmp_rows].
  - intros ?; simplify_eq. exists []. split; [done|]. split; [done|]. lia.
  - unfold fread. rewrite size_t_of_small by done.
    destruct (Z.eqb_spec
                (Z.of_nat (length (take (Z.to_nat W) (drop (Z.to_nat pos) f)))) W)
      as [Hrow|]; [|done]. cbn [negb].
    rewrite Hrow.
    replace (pos + W + (rs - W)) with (pos + rs) by lia.
    assert ((pos + rs <? 0) = false) as -> by lia.
    intros Hread. apply IH in Hread as (rows & -> & Hlen & Hrows); [|lia].
    exists (rows ++ take (Z.to_nat W) (drop (Z.to_nat pos) f)).
    split; [by rewrite <- app_assoc|]. split; [rewrite length_app; lia|].
    intros r Hr. destruct (decide (r < i)%nat) as [Hlt|Hge].
    + rewrite drop_app_le, take_app_le by (rewrite ?length_drop; nia).
      rewrite Hrows by done. do 2 f_equal. nia.
    + assert (r = i) as -> by lia.
      rewrite drop_app_length' by lia.
      rewrite take_take, Nat.min_id. do 2 f_equal. lia.
Qed.


(** * Further properties *)

(** ** PNM headers with comments *)

Lemma skip_blanks_comment text s :
  NL ∉ text → skip_blanks true (text ++ NL :: s) = skip_blanks false s.
Proof.
  induction text as [|b text IH]; intros Hnl; cbn [app skip_blanks].
  - by rewrite Z.eqb_refl.
  - apply not_elem_of_cons in Hnl as [Hb Hnl].
    assert ((b =? NL) = false) as -> by lia. cbn [negb]. by apply IH.
Qed.

Lemma skip_blanks_separator sep rest :
  separator sep → is_digit (cur rest) = true →
  skip_blanks false (sep ++ rest) = rest.
Proof.
  intros Hsep Hrest. induction Hsep as [|b s Hb _ IH|text s Hnl _ IH].
  - by apply skip_blanks_stop.
  - cbn [app]. by rewrite skip_blanks_blank.
  - cbn [app skip_blanks]. change (chr "#") with 35. cbn.
    rewrite <- app_assoc. cbn [app]. by rewrite skip_blanks_comment.
Qed.

Lemma separator_not_digit sep rest :
  separator sep → sep ≠ [] → is_digit (cur (sep ++ rest)) = false.
Proof.
  intros Hsep Hne. destruct Hsep as [|b s Hb _|text s _ _]; [done|..].
  - cbn. unfold is_digit, NL in *. lia.
  - done.
Qed.

Lemma printf_d_head n rest :
  0 <= n → is_digit (cur (printf_d n ++ rest)) = true.
Proof. intros Hn. rewrite printf_d_nonneg by done. apply print_unsigned_head. Qed.

Lemma ReadHeader_separated tc sep1 sep2 sep3 w h m d data :
  separator sep1 → separator sep2 → separator sep3 →
  sep2 ≠ [] → sep3 ≠ [] →
  0 <= w < 2 ^ 32 → 0 <= h < 2 ^ 32 → 0 <= m → is_digit d = false →
  tc = chr "5" ∨ tc = chr "6" →
  ReadHeader ([chr "P"; tc] ++ sep1 ++ printf_d w ++ sep2 ++ printf_d h
              ++ sep3 ++ printf_d m ++ d :: data)
  = Some (tc, w, h, Some m, data).
Proof.
  intros Hs1 Hs2 Hs3 Hn2 Hn3 Hw Hh Hm Hd [-> | ->]; unfold ReadHeader; eval_chr;
    cbn -[printf_d skip_blanks read_number u32];
    rewrite skip_blanks_separator by (done || by apply printf_d_head; lia);
    rewrite read_number_printf_d by (lia || by apply separator_not_digit);
    rewrite skip_blanks_separator by (done || by apply printf_d_head; lia);
    rewrite read_number_printf_d by (lia || by apply separator_not_digit);
    rewrite skip_blanks_separator by (done || by apply printf_d_head; lia);
    rewrite read_number_printf_d by done;
    by rewrite !u32_small by lia.
Qed.

(** X1. ReadHeader accepts a header whose fields (numbers within the
    range of int) are separated by any mix of blanks and comments; the
    single character behind the last number is consumed, and the data
    start behind it. For type '4' there is no maximum value. *)
Theorem ReadHeader_accepts_comments tc sep1 sep2 sep3 w h m d data :
  separator sep1 → separator sep2 → separator sep3 →
  sep2 ≠ [] → sep3 ≠ [] →
  0 <= w < 2 ^ 31 → 0 <= h < 2 ^ 31 → 0 <= m < 2 ^ 31 → is_digit d = false →
  (tc = chr "5" ∨ tc = chr "6" →
   ReadHeader ([chr "P"; tc] ++ sep1 ++ printf_d w ++ sep2 ++ printf_d h
               ++ sep3 ++ printf_d m ++ d :: data)
   = Some (tc, w, h, Some m, data))
  ∧ ReadHeader ([chr "P"; chr "4"] ++ sep1 ++ printf_d w ++ sep2 ++ printf_d h
                ++ d :: data)
    = Some (chr "4", w, h, None, data).
Proof.
  intros Hs1 Hs2 Hs3 Hn2 Hn3 Hw Hh Hm Hd. split.
  - intros Htc. apply ReadHeader_separated; done || lia.
  - unfold ReadHeader. eval_chr. cbn -[printf_d skip_blanks read_number u32].
    rewrite skip_blanks_separator by (done || by apply printf_d_head; lia).
    rewrite read_number_printf_d by (lia || by apply separator_not_digit).
    rewrite skip_blanks_separator by (done || by apply printf_d_head; lia).
    rewrite read_number_printf_d by (lia || done).
    by rewrite !u32_small by lia.
Qed.

(** ** What ReadHeader requires *)

Lemma skip_to_eol_cur s : cur (skip_to_eol s) = NL ∨ cur (skip_to_eol s) = EOF.
Proof.
  induction s as [|b s IH]; cbn [skip_to_eol]; [by right|].
  destruct (Z.eqb_spec b NL) as [->|]; [by left | done].
Qed.

Lemma skip_blanks_suffix in_comment s : skip_blanks in_comment s `suffix_of` s.
Proof.
  revert in_comment. induction s as [|b s IH]; intros in_comment; [done|].
  cbn [skip_blanks].
  destruct in_comment; [by apply suffix_cons_r|].
  destruct (_ || _); [by apply suffix_cons_r|].
  destruct (b =? chr "#"); [by apply suffix_cons_r | done].
Qed.

Lemma scan_digits_nonneg v s : 0 <= v → 0 <= (scan_digits v s).1.
Proof.
  revert v. induction s as [|b s IH]; intros v Hv; cbn [scan_digits]; [done|].
  destruct (is_digit b) eqn:Hb; [|done].
  apply IH. unfold is_digit in Hb. lia.
Qed.

Lemma read_number_spec s v r :
  read_number s = Some (v, r) → 0 <= v ∧ r `suffix_of` s.
Proof.
  unfold read_number. destruct (is_digit (cur s)); [|done].
  intros ?; simplify_eq.
  pose proof (scan_digits_nonneg 0 s ltac:(done)) as Hv.
  pose proof (scan_digits_suffix 0 s) as Hs.
  destruct (scan_digits 0 s) as [v' r']. by simplify_eq/=.
Qed.

Lemma u32_range n : 0 <= u32 n < 2 ^ 32.
Proof. unfold u32. by apply Z.mod_pos_bound. Qed.

(** X2. ReadHeader returns 1 only for a file that begins with 'P' and one
    of '4', '5', '6' (a file that begins with a comment line is
    rejected); the width and the height are below 2^32, the maximum
    value is assigned exactly for the types '5' and '6', and the data
    are a part of the file. *)
Theorem ReadHeader_requires f tc w h m rest :
  ReadHeader f = Some (tc, w, h, m, rest) →
  (∃ r, f = chr "P" :: tc :: r)
  ∧ (tc = chr "4" ∨ tc = chr "5" ∨ tc = chr "6")
  ∧ 0 <= w < 2 ^ 32 ∧ 0 <= h < 2 ^ 32
  ∧ (m = None ↔ tc = chr "4")
  ∧ rest `suffix_of` f.
Proof.
  unfold ReadHeader.
  destruct (Z.eqb_spec (cur f) (chr "#")) as [Hc|Hc].
  { destruct (skip_to_eol_cur (tl f)) as [-> | ->]; done. }
  destruct f as [|p [|t f]]; [done| |]; cbn [cur tl];
    (destruct (Z.eqb_spec p (chr "P")) as [->|]; [|done]); cbn [negb]; [done|].
  destruct ((t =? chr "4") || (t =? chr "5") || (t =? chr "6")) eqn:Ht; [|done].
  cbn [negb].
  destruct (read_number (skip_blanks false f)) as [[v1 s1]|] eqn:H1; [|done].
  destruct (read_number (skip_blanks false s1)) as [[v2 s2]|] eqn:H2; [|done].
  apply read_number_spec in H1 as [_ Hs1], H2 as [_ Hs2].
  assert (s2 `suffix_of` chr "P" :: t :: f) as Hsuffix.
  { etrans; [exact Hs2|]. etrans; [apply skip_blanks_suffix|].
    etrans; [exact Hs1|]. etrans; [apply skip_blanks_suffix|].
    do 2 apply suffix_cons_r. done. }
  assert (t = chr "4" ∨ t = chr "5" ∨ t = chr "6") as Htc by lia.
  pose proof (u32_range v1). pose proof (u32_range v2).
  destruct (Z.eqb_spec t (chr "4")) as [->|Hn4].
  - intros ?; simplify_eq. split_and!; try lia; try done.
    + by eexists.
    + etrans; [apply tl_suffix | done].
  - destruct (read_number (skip_blanks false s2)) as [[v3 s3]|] eqn:H3; [|done].
    apply read_number_spec in H3 as [_ Hs3].
    intros ?; simplify_eq. split_and!; try lia; try done.
    + by eexists.
    + etrans; [apply tl_suffix|]. etrans; [exact Hs3|].
      etrans; [apply skip_blanks_suffix | done].
Qed.

(** ** PGM and PPM readers *)

(** X3. On a file with the magic "P5" or "P6", whatever its maximum
    value, ReadPgmImage and ReadPpmImage do the same: they return the
    first [w * h mod 2^32] bytes behind the header as the pixels (for a
    PPM these are not the gray values of its RGB triples), and fail
    when the file holds fewer. *)
Theorem pnm_readers_first_bytes fs filename tc sep1 sep2 sep3 w h m d data :
  separator sep1 → separator sep2 → separator sep3 →
  sep2 ≠ [] → sep3 ≠ [] →
  tc = chr "5" ∨ tc = chr "6" →
  0 <= w < 2 ^ 31 → 0 <= h < 2 ^ 31 → 0 <= m < 2 ^ 31 → is_digit d = false →
  fs !! filename
  = Some ([chr "P"; tc] ++ sep1 ++ printf_d w ++ sep2 ++ printf_d h
          ++ sep3 ++ printf_d m ++ d :: data) →
  malloc_ok E ((w * h) mod 2 ^ 32) = true →
  ReadPgmImage fs filename
  = (if Z.of_nat (length data) <? (w * h) mod 2 ^ 32
     then Failure ("Image file " +:+ filename +:+ " apparently truncated." +:+ nl)
     else Success (take (Z.to_nat ((w * h) mod 2 ^ 32)) data, w, h))
  ∧ ReadPpmImage fs filename = ReadPgmImage fs filename.
Proof.
  intros Hs1 Hs2 Hs3 Hn2 Hn3 Htc Hw Hh Hm Hd Hfile Hmem.
  pose proof (ReadHeader_separated tc sep1 sep2 sep3 w h m d data
                Hs1 Hs2 Hs3 Hn2 Hn3 ltac:(lia) ltac:(lia) (proj1 Hm) Hd Htc)
    as Hheader.
  unfold ReadPgmImage, ReadPpmImage, fread. rewrite Hfile, Hheader.
  change ((w * h) mod 2 ^ 32) with (u32 (w * h)) in Hmem |- *.
  rewrite Hmem. cbn [negb].
  rewrite !s32_small by lia.
  pose proof (u32_range (w * h)) as Hn. revert Hn.
  generalize (u32 (w * h)). intros n Hn. rewrite length_take.
  destruct (Z.ltb_spec (Z.of_nat (length data)) n).
  - by assert ((Z.of_nat (Z.to_nat n `min` length data) =? n) = false) as ->
      by (apply Z.eqb_neq; lia).
  - by assert ((Z.of_nat (Z.to_nat n `min` length data) =? n) = true) as ->
      by (apply Z.eqb_eq; lia).
Qed.

(** ** BMP headers *)

Lemma read_field_spec filename field size f :
  0 <= size →
  read_field filename field size f
  = if size <=? Z.of_nat (length f)
    then Success (le_value (take (Z.to_nat size) f), drop (Z.to_nat size) f)
    else Failure ("Image file " +:+ filename +:+ " not bmp " +:+ field +:+ "." +:+ nl).
Proof.
  intros Hsize. unfold read_field, fread. rewrite length_take.
  destruct (Z.leb_spec size (Z.of_nat (length f))).
  - by assert ((Z.of_nat (Z.to_nat size `min` length f) =? size) = true) as ->
      by (apply Z.eqb_eq; lia).
  - by assert ((Z.of_nat (Z.to_nat size `min` length f) =? size) = false) as ->
      by (apply Z.eqb_neq; lia).
Qed.

(** One step of the header: a field that the file still holds. *)
Ltac read_field_ok :=
  rewrite read_field_spec by lia;
  match goal with
  | |- context [?n <=? Z.of_nat (length ?l)] =>
      assert ((n <=? Z.of_nat (length l)) = true) as ->
        by (apply Z.leb_le; rewrite ?length_drop; lia)
  end;
  cbn [mbind status_bind];
  change (Z.to_nat 2) with 2%nat; change (Z.to_nat 4) with 4%nat;
  rewrite ?drop_drop; cbn [Nat.add].

Lemma read_bmp_headers_spec filename bpp8 f :
  (54 <= length f)%nat →
  read_bmp_headers filename bpp8 f
  = if negb (le_value (take 2 f) =? BMP_FILE_TYPE)
    then Failure ("Image file " +:+ filename +:+ " not bmp file.bfType." +:+ nl)
    else if bpp8 && negb (le_value (take 2 (drop 28 f)) =? 8)
    then Failure ("Unsupported pixel size ("
                  +:+ sprintf_d (le_value (take 2 (drop 28 f)))
                  +:+ ") for file " +:+ filename
                  +:+ ". Convert to grayscale image" +:+ nl)
    else Success (le_value (take 4 (drop 10 f)),
                  s32 (le_value (take 4 (drop 18 f))),
                  s32 (le_value (take 4 (drop 22 f))),
                  le_value (take 2 (drop 28 f))).
Proof.
  intros Hlen. unfold read_bmp_headers.
  read_field_ok.
  destruct (negb (le_value (take 2 f) =? BMP_FILE_TYPE)); [done|].
  do 8 read_field_ok.
  destruct (bpp8 && negb (le_value (take 2 (drop 28 f)) =? 8)); [done|].
  do 6 read_field_ok. done.
Qed.

Lemma read_bmp_headers_short filename bpp8 f :
  (length f < 54)%nat → ∃ msg, read_bmp_headers filename bpp8 f = Failure msg.
Proof.
  intros Hlen. unfold read_bmp_headers.
  repeat (rewrite read_field_spec by lia;
          match goal with
          | |- context [?n <=? Z.of_nat (length ?l)] =>
              destruct (Z.leb_spec n (Z.of_nat (length l))); [|by eexists]
          end;
          cbn [mbind status_bind];
          change (Z.to_nat 2) with 2%nat in *; change (Z.to_nat 4) with 4%nat in *;
          rewrite ?drop_drop in *; cbn [Nat.add] in *;
          try (destruct (negb _); [by eexists|]);
          try (destruct (bpp8 && _); [by eexists|])).
  rewrite !length_drop in *. lia.
Qed.

Lemma le_value_nonneg bs : Forall (fun b => 0 <= b < 256) bs → 0 <= le_value bs.
Proof. induction 1 as [|b bs Hb _ IH]; cbn [le_value]; lia. Qed.

(** X4. ReadBmpImageSize returns 1 exactly for a file of at least 54
    bytes whose first two bytes are the type "BM"; the width and the
    height are the little-endian 32-bit integers at the offsets 18 and
    22 of the file. Nothing else of the header is examined. *)
Theorem ReadBmpImageSize_fields fs filename f w h :
  fs !! filename = Some f →
  ReadBmpImageSize fs filename = Success (w, h)
  ↔ (54 <= length f)%nat
    ∧ le_value (take 2 f) = BMP_FILE_TYPE
    ∧ w = s32 (le_value (take 4 (drop 18 f)))
    ∧ h = s32 (le_value (take 4 (drop 22 f))).
Proof.
  intros Hf. unfold ReadBmpImageSize. rewrite Hf.
  destruct (decide (54 <= length f)%nat) as [Hlen|Hlen].
  - rewrite read_bmp_headers_spec by done. cbn [andb].
    destruct (Z.eqb_spec (le_value (take 2 f)) BMP_FILE_TYPE) as [Hm|Hm];
      cbn [negb mbind status_bind]; split.
    + intros ?; simplify_eq. done.
    + intros (_ & _ & -> & ->). done.
    + done.
    + intros (_ & ? & _). done.
  - destruct (read_bmp_headers_short filename false f) as [msg ->]; [lia|].
    cbn [mbind status_bind]. split; [done|]. intros (? & _). done.
Qed.

(** X5. A BMP file whose bit count (the 16-bit integer at offset 28) is
    not 8 is refused by ReadBmpImage with "Unsupported pixel size",
    while ReadBmpImageSize reports its size. *)
Theorem ReadBmpImage_bit_count fs filename f :
  fs !! filename = Some f →
  (54 <= length f)%nat →
  le_value (take 2 f) = BMP_FILE_TYPE →
  le_value (take 2 (drop 28 f)) ≠ 8 →
  ReadBmpImage fs filename
  = Failure ("Unsupported pixel size ("
             +:+ sprintf_d (le_value (take 2 (drop 28 f)))
             +:+ ") for file " +:+ filename
             +:+ ". Convert to grayscale image" +:+ nl)
  ∧ ReadBmpImageSize fs filename
    = Success (s32 (le_value (take 4 (drop 18 f))),
               s32 (le_value (take 4 (drop 22 f)))).
Proof.
  intros Hf Hlen Hmagic Hbits. unfold ReadBmpImage, ReadBmpImageSize.
  rewrite Hf, !read_bmp_headers_spec by done. rewrite Hmagic, Z.eqb_refl.
  assert ((le_value (take 2 (drop 28 f)) =? 8) = false) as -> by lia.
  done.
Qed.

(** X6. When ReadBmpImage returns 1 for a width [0 <= W < 2^28] and a
    height [H] with [W * H] in the range of int (so that the products
    [8 * W] and [W * H] of the source do not overflow), row [r] of the
    buffer holds the [W] bytes of the file at the offset
    [bfOffset + (H - 1 - r) * (W - W mod 4)], where [bfOffset] is the
    32-bit integer at offset 10: the rows are taken bottom-up with the
    stride [W - W mod 4]. When [W] is a multiple of 4 this is the image
    top-down. *)
Theorem ReadBmpImage_rows fs filename f b W H :
  fs !! filename = Some f →
  Forall (fun byte => 0 <= byte < 256) f →
  ReadBmpImage fs filename = Success (b, W, H) →
  0 <= W < 2 ^ 28 → - 2 ^ 31 <= W * H < 2 ^ 31 →
  Z.of_nat (length b) = W * Z.max H 0
  ∧ (∀ r, 0 <= r < H →
       take (Z.to_nat W) (drop (Z.to_nat (r * W)) b)
       = take (Z.to_nat W)
           (drop (Z.to_nat (le_value (take 4 (drop 10 f))
                            + (H - 1 - r) * (W - W mod 4))) f))
  ∧ (W mod 4 = 0 → top_down_rows b f (le_value (take 4 (drop 10 f))) W H).
Proof.
  intros Hf Hbytes Hread HW _. unfold ReadBmpImage in Hread. rewrite Hf in Hread.
  destruct (decide (54 <= length f)%nat) as [Hlen|Hlen];
    [|by destruct (read_bmp_headers_short filename true f) as [msg Hm];
         [lia | rewrite Hm in Hread]].
  rewrite read_bmp_headers_spec in Hread by done.
  destruct (negb (_ =? BMP_FILE_TYPE)); [done|].
  destruct (Z.eqb_spec (le_value (take 2 (drop 28 f))) 8) as [Hbits|];
    cbn [andb negb] in Hread; [|done].
  cbn [mbind status_bind] in Hread.
  destruct (negb (malloc_ok E _)); [done|].
  set (off := le_value (take 4 (drop 10 f))) in *.
  assert (0 <= off) as Hoff
    by (apply le_value_nonneg, Forall_take, Forall_drop, Hbytes).
  destruct (read_bmp_rows _ _ _ _ _ _ _) as [b'|] eqn:Hrows; [|done].
  cbn [mbind status_bind] in Hread.
  injection Hread as Hb HW' HH'.
  rewrite HW', HH' in *. clear HW' HH'.
  rewrite Hbits, rowsize_8bit in Hrows by done.
  pose proof (Z.mod_pos_bound W 4 ltac:(done)).
  pose proof (Z.mod_le W 4 ltac:(lia) ltac:(done)).
  apply read_bmp_rows_spec in Hrows as (rows & Hb' & Hlength & Hrow); [|lia..].
  rewrite app_nil_r in Hb'. subst b' b.
  assert (∀ r, 0 <= r < H →
            take (Z.to_nat W) (drop (Z.to_nat (r * W)) rows)
            = take (Z.to_nat W)
                (drop (Z.to_nat (off + (H - 1 - r) * (W - W mod 4))) f)) as Hall.
  { intros r Hr. specialize (Hrow (Z.to_nat r) ltac:(lia)).
    replace (Z.to_nat (r * W)) with (Z.to_nat r * Z.to_nat W)%nat by nia.
    rewrite Hrow.
    replace (Z.of_nat (Z.to_nat H - 1 - Z.to_nat r)) with (H - 1 - r) by lia.
    done. }
  split; [nia|]. split; [exact Hall|].
  intros Hmod r Hr. rewrite Hall by done. unfold bmp_stored_row, bmp_padding.
  rewrite Hmod. change ((4 - 0) mod 4) with 0. by rewrite Z.add_0_r, Z.sub_0_r.
Qed.

(** ** Readers and size routines *)

Lemma read_strips_length filename stripSize strips cnt off b0 b :
  read_strips filename stripSize strips cnt off b0 = Success b →
  length b = length b0.
Proof.
  revert cnt off b0.
  induction strips as [|[data|] strips IH]; intros cnt off b0; cbn [read_strips].
  - by intros ?; simplify_eq.
  - intros Hb%IH. by rewrite Hb, length_inserts.
  - done.
Qed.

(** X7. Whenever ReadTiffImage, ReadPgmImage, ReadPpmImage,
    ReadBmpImage or ReadPbmBitmap returns 1, the size routine of the
    same format returns 1 on the same file, with the width and height
    that the reader returned. *)
Theorem size_routines_agree_with_readers fs filename b w h :
  (ReadTiffImage fs filename = Success (b, w, h) →
   ReadTiffImageSize fs filename = Success (w, h))
  ∧ (ReadPgmImage fs filename = Success (b, w, h) →
     ReadPgmImageSize fs filename = Success (w, h))
  ∧ (ReadPpmImage fs filename = Success (b, w, h) →
     ReadPpmImageSize fs filename = Success (w, h))
  ∧ (ReadBmpImage fs filename = Success (b, w, h) →
     ReadBmpImageSize fs filename = Success (w, h))
  ∧ (ReadPbmBitmap fs filename = Success (b, w, h) →
     ReadPbmBitmapSize fs filename = Success (w, h)).
Proof.
  split_and!.
  - unfold ReadTiffImage, ReadTiffImageSize.
    destruct (fs !! filename ≫= TIFFOpen E) as [image|]; [|done].
    destruct (negb (defined _) || _); [done|].
    destruct (defined _ && _); [done|].
    destruct (tif_imagewidth image) as [iw|]; [|done].
    destruct (tif_imagelength image) as [ih|]; [|done].
    destruct (negb (malloc_ok E _)); [done|].
    destruct (read_strips _ _ _ _ _ _) as [raw|]; [|done]. cbn [mbind status_bind].
    destruct (tif_photometric image); [|done]. by intros ?; simplify_eq.
  - unfold ReadPgmImage, ReadPgmImageSize.
    destruct (fs !! filename) as [f|]; [|done].
    destruct (ReadHeader f) as [[[[[tc iw] ih] m] r]|]; [|done].
    destruct (negb (malloc_ok E _)); [done|].
    destruct (fread _ _) as [got r']. destruct (negb (_ =? _)); [done|].
    by intros ?; simplify_eq.
  - unfold ReadPpmImage, ReadPpmImageSize.
    destruct (fs !! filename) as [f|]; [|done].
    destruct (ReadHeader f) as [[[[[tc iw] ih] m] r]|]; [|done].
    destruct (negb (malloc_ok E _)); [done|].
    destruct (fread _ _) as [got r']. destruct (negb (_ =? _)); [done|].
    by intros ?; simplify_eq.
  - unfold ReadBmpImage, ReadBmpImageSize.
    destruct (fs !! filename) as [f|]; [|done].
    destruct (decide (54 <= length f)%nat) as [Hlen|Hlen];
      [|by destruct (read_bmp_headers_short filename true f) as [msg ->]; [lia|]].
    rewrite !read_bmp_headers_spec by done.
    destruct (negb (_ =? BMP_FILE_TYPE)); [done|]. cbn [andb].
    destruct (negb (_ =? 8)); [done|]. cbn [mbind status_bind].
    destruct (negb (malloc_ok E _)); [done|].
    destruct (read_bmp_rows _ _ _ _ _ _ _); [|done]. cbn [mbind status_bind].
    by intros ?; simplify_eq.
  - unfold ReadPbmBitmap, ReadPbmBitmapSize.
    destruct (fs !! filename) as [f|]; [|done].
    destruct (ReadHeader f) as [[[[[tc iw] ih] m] r]|]; [|done].
    destruct (negb (tc =? chr "4")); [done|].
    destruct (negb (malloc_ok E _)); [done|].
    destruct (fread _ _) as [got r']. destruct (negb (_ =? _)); [done|].
    by intros ?; simplify_eq.
Qed.

(** X8. ReadTiffImage returns 1 only for a file that libtiff opens,
    with 8 bits per sample, one sample per pixel where the tag is
    present, and the width, length and photometric tags present; the
    buffer it returns then has number-of-strips times strip-size bytes
    (as a size_t), whatever the width and the height are. *)
Theorem ReadTiffImage_requires fs filename b w h :
  ReadTiffImage fs filename = Success (b, w, h) →
  ∃ image iw ih,
    fs !! filename ≫= TIFFOpen E = Some image
    ∧ tif_bitspersample image = Some 8
    ∧ (tif_samplesperpixel image = None ∨ tif_samplesperpixel image = Some 1)
    ∧ tif_imagewidth image = Some iw ∧ w = s32 iw
    ∧ tif_imagelength image = Some ih ∧ h = s32 ih
    ∧ defined (tif_photometric image) = true
    ∧ Z.of_nat (length b)
      = size_t_of (Z.of_nat (length (tif_strips image)) * tif_stripsize image).
Proof.
  unfold ReadTiffImage.
  destruct (fs !! filename ≫= TIFFOpen E) as [image|]; [|done].
  destruct (tif_bitspersample image) as [bps|] eqn:Hbps;
    cbn [defined negb orb default from_option id]; [|done].
  destruct (Z.eqb_spec bps 8) as [->|]; cbn [negb]; [|done].
  destruct (defined _ && _) eqn:Hspp; [done|].
  destruct (tif_imagewidth image) as [iw|] eqn:Hiw; [|done].
  destruct (tif_imagelength image) as [ih|] eqn:Hih; [|done].
  destruct (negb (malloc_ok E _)); [done|].
  destruct (read_strips _ _ _ _ _ _) as [raw|] eqn:Hraw; [|done].
  cbn [mbind status_bind].
  destruct (tif_photometric image) as [photo|] eqn:Hphoto; [|done].
  intros ?; simplify_eq. exists image, iw, ih. split_and!; try done.
  - destruct (tif_samplesperpixel image) as [spp|]; [|by left].
    cbn [defined default from_option id andb] in Hspp. right. f_equal. lia.
  - by rewrite Hphoto.
  - apply read_strips_length in Hraw. rewrite length_resize in Hraw.
    destruct (negb (photo =? _)); rewrite ?length_fmap, Hraw; apply Z2Nat.id;
      by apply Z.mod_pos_bound.
Qed.

(** ** The cached extension *)

Lemma find_candidate_Some fs filename j i todo k fn :
  find_candidate fs filename j i todo = Some (k, fn) →
  fn = filename +:+ default ""%string (extensions !! Z.to_nat k)
  ∧ is_Some (fs !! fn).
Proof.
  revert i. induction todo as [|todo IH]; intros i; [done|].
  cbn [find_candidate]. destruct (fs !! (filename +:+ _)) eqn:Hf; [|apply IH].
  intros ?; simplify_eq. split; [done|]. by eexists.
Qed.

Lemma find_candidate_again fs filename j i todo k fn :
  0 <= j → 0 <= i →
  find_candidate fs filename j i todo = Some (k, fn) →
  find_candidate fs filename k 0 (Z.to_nat N_EXTENSIONS) = Some (k, fn).
Proof.
  intros Hj Hi Hfind.
  pose proof (find_candidate_range _ _ _ _ _ _ _ Hj Hi Hfind) as Hk.
  apply find_candidate_Some in Hfind as [-> [f Hf]].
  change (Z.to_nat N_EXTENSIONS) with 14%nat. cbn [find_candidate].
  rewrite Z.add_0_r, Z.rem_small by done. by rewrite Hf.
Qed.

Ltac direct_dispatch :=
  let H := fresh in
  intros H; injection H as H ?; subst; rewrite ?H; split_and!; try (done || lia);
  repeat (case_match; simplify_eq; try done).

(** X9. When ReadImageSize returns 1 it leaves the files and the bitmap
    index alone and the cached index within the table. In the world it
    leaves, ReadImageSize returns the same size again without changing
    that world, and ReadImage returns what it would have returned
    before. *)
Theorem ReadImageSize_then_ReadImage w filename size w' minX maxX minY maxY :
  0 <= extension w < N_EXTENSIONS →
  ReadImageSize w filename = (Success size, w') →
  files w' = files w ∧ bitmapExtension w' = bitmapExtension w
  ∧ 0 <= extension w' < N_EXTENSIONS
  ∧ ReadImageSize w' filename = (Success size, w')
  ∧ (ReadImage w' filename minX maxX minY maxY).1
    = (ReadImage w filename minX maxX minY maxY).1.
Proof.
  intros Hext. unfold ReadImageSize, ReadImage, ReadImage_decode.
  destruct (String.length filename =? 0)%nat; [done|].
  destruct (has_extension filename ".tif" || has_extension filename ".tiff");
    [by direct_dispatch|].
  destruct (has_extension filename ".pgm"); [by direct_dispatch|].
  destruct (has_extension filename ".ppm"); [by direct_dispatch|].
  destruct (has_extension filename ".jpg" || has_extension filename ".jpeg");
    [by direct_dispatch|].
  destruct (has_extension filename ".bmp"); [by direct_dispatch|].
  destruct (find_candidate _ _ _ _ _) as [[k fn]|] eqn:Hfind; [|done].
  pose proof (find_candidate_range _ _ _ _ _ _ _ (proj1 Hext) (Z.le_refl 0) Hfind).
  pose proof (find_candidate_again _ _ _ _ _ _ _ (proj1 Hext) (Z.le_refl 0) Hfind)
    as Hagain.
  destruct (size_reader k (files w) fn) as [size'|] eqn:Hsize; [|done].
  intros ?; simplify_eq. cbn [files extension bitmapExtension].
  rewrite Hagain, Hsize. split_and!; try (done || lia).
  by destruct (image_reader _ _ _) as [[[??]?]|].
Qed.

Ltac direct_read reader :=
  let H := fresh in
  let Hread := fresh in
  destruct reader as [[[??]?]|] eqn:Hread; [|done];
  intros H; injection H as H ?; subst; rewrite Hread, H;
  split_and!; try (done || lia);
  repeat (case_match; simplify_eq; try done).

(** X10. When ReadImage returns 1 it leaves the files and the bitmap
    index alone and the cached index within the table; the same call
    repeated in the world it leaves returns the same image and leaves
    that world, and so does ReadImageSize. *)
Theorem ReadImage_repeated w filename image w' minX maxX minY maxY :
  0 <= extension w < N_EXTENSIONS →
  ReadImage w filename minX maxX minY maxY = (Success image, w') →
  files w' = files w ∧ bitmapExtension w' = bitmapExtension w
  ∧ 0 <= extension w' < N_EXTENSIONS
  ∧ ReadImage w' filename minX maxX minY maxY = (Success image, w')
  ∧ (ReadImageSize w' filename).2 = w'.
Proof.
  intros Hext. unfold ReadImageSize, ReadImage, ReadImage_decode.
  destruct (String.length filename =? 0)%nat; [done|].
  destruct (has_extension filename ".tif" || has_extension filename ".tiff");
    [by direct_read (ReadTiffImage (files w) filename)|].
  destruct (has_extension filename ".pgm");
    [by direct_read (ReadPgmImage (files w) filename)|].
  destruct (has_extension filename ".jpg" || has_extension filename ".jpeg");
    [by direct_read (ReadJpgImage (files w) filename)|].
  destruct (has_extension filename ".bmp");
    [by direct_read (ReadBmpImage (files w) filename)|].
  destruct (find_candidate _ _ _ _ _) as [[k fn]|] eqn:Hfind; [|done].
  pose proof (find_candidate_range _ _ _ _ _ _ _ (proj1 Hext) (Z.le_refl 0) Hfind).
  pose proof (find_candidate_again _ _ _ _ _ _ _ (proj1 Hext) (Z.le_refl 0) Hfind)
    as Hagain.
  destruct (image_reader k (files w) fn) as [[[buffer iw] ih]|] eqn:Himage; [|done].
  intros ?; simplify_eq. cbn [files extension bitmapExtension].
  rewrite Hagain, Himage. split_and!; try (done || lia).
  - by f_equal.
  - destruct (has_extension filename ".ppm"); [done|].
    by destruct (size_reader _ _ _).
Qed.

(** ** Writers *)

(** X11. WriteImage, WriteJpgImage and WriteMap change no file other
    than the one they are given, and WriteBitmap changes no file other
    than the full name it derives from its argument (so that, for a
    name without a dot, the file of that very name is left alone),
    whether they return 1 or 0. *)
Theorem writers_touch_only_their_target fs filename other pixels width height
    imageCompression quality bitmap bitmapCompression
    map level xMin yMin imageName referenceName mapCompression :
  (other ≠ filename →
   (WriteImage fs filename pixels width height imageCompression).2 !! other
   = fs !! other
   ∧ (WriteJpgImage fs filename pixels width height quality).2 !! other
     = fs !! other
   ∧ (WriteMap fs filename map level width height xMin yMin
        imageName referenceName mapCompression).2 !! other
     = fs !! other)
  ∧ (other ≠ fullFilename filename →
     (WriteBitmap fs filename bitmap width height bitmapCompression).2 !! other
     = fs !! other).
Proof.
  split.
  - intros Hother.
    assert (∀ q, (WriteJpgImage fs filename pixels width height q).2 !! other
                 = fs !! other) as Hjpg.
    { intros q. unfold WriteJpgImage. destruct (negb _); [done|].
      cbn [snd]. by rewrite lookup_insert_ne. }
    split_and!.
    + unfold WriteImage.
      repeat (case_match; simplify_eq; cbn [snd];
              rewrite ?lookup_insert_ne by done; try done).
    + apply Hjpg.
    + unfold WriteMap.
      repeat (case_match; simplify_eq; cbn [snd];
              rewrite ?lookup_insert_ne by done; try done).
  - intros Hfull. unfold WriteBitmap.
    repeat (case_match; simplify_eq; cbn [snd];
            rewrite ?lookup_insert_ne by done; try done).
Qed.

(** X12. An image of at least one pixel that WriteImage wrote to a name
    ending in ".pgm" is found again by ReadImageSize and ReadImage under
    that name: the size is the size written and, for a request of the
    full image, the pixels are the pixels written; the cached extension
    is not touched. *)
Theorem WriteImage_ReadImage_round_trip w filename pixels width height
    compressionMethod minX maxX minY maxY :
  (5 <= String.length filename)%nat →
  ends_with filename ".pgm" = true →
  fopen_w_ok E filename = true →
  malloc_ok E (width * height) = true →
  1 <= width < 2 ^ 31 → 1 <= height < 2 ^ 31 → width * height < 2 ^ 32 →
  Z.of_nat (length pixels) = width * height →
  minX <= 0 → maxX < 0 ∨ maxX = width - 1 →
  minY <= 0 → maxY < 0 ∨ maxY = height - 1 →
  ∃ fs',
    WriteImage (files w) filename pixels width height compressionMethod
    = (Success (), fs')
    ∧ let w' := {| files := fs'; extension := extension w;
                   bitmapExtension := bitmapExtension w |} in
      ReadImageSize w' filename = (Success (width, height), w')
      ∧ ReadImage w' filename minX maxX minY maxY
        = (Success (pixels, width, height), w').
Proof.
  intros Hlen Hpgm Hopen Hmem Hw Hh Hrange Hpix HminX HmaxX HminY HmaxY.
  eexists. split.
  { rewrite WriteImage_pgm by (done || lia).
    by assert ((width * height =? 0) = false) as -> by lia. }
  destruct (ends_with_pgm_not_tiff filename Hlen Hpgm) as [Htif Htiff].
  assert ((String.length filename =? 0)%nat = false) as Hne
    by (apply Nat.eqb_neq; lia).
  cbn zeta. unfold ReadImageSize, ReadImage, ReadImage_decode.
  cbn [files extension bitmapExtension].
  rewrite Hne. unfold has_extension.
  rewrite Htif, Htiff, Hpgm, !andb_false_r, andb_true_r. cbn [orb].
  assert ((String.length ".pgm" <? String.length filename)%nat = true) as ->
    by (apply Nat.ltb_lt; cbn [String.length]; lia).
  unfold ReadPgmImageSize, ReadPgmImage, fread. rewrite lookup_insert_eq.
  rewrite ReadHeader_pgm_header by lia.
  rewrite u32_small, Hmem by lia. cbn [negb].
  rewrite take_ge by lia. rewrite Hpix, Z.eqb_refl. cbn [negb].
  rewrite !s32_small by lia. split; [done|].
  unfold ReadImage_region.
  assert ((minX <=? 0) && ((maxX <? 0) || (maxX =? width - 1))
          && (minY <=? 0) && ((maxY <? 0) || (maxY =? height - 1)) = true) as ->;
    [|done].
  rewrite !andb_true_iff, !orb_true_iff. lia.
Qed.

(** ** Probing for bitmaps *)

Lemma find_bitmap_candidate_none fs filename j i0 todo :
  (∀ k, 0 <= k < N_BITMAP_EXTENSIONS → fs !! bitmap_candidate filename k = None) →
  0 <= j → 0 <= i0 →
  find_bitmap_candidate fs filename j i0 todo = None.
Proof.
  intros Hnone Hj. revert i0.
  induction todo as [|todo IH]; intros i0 Hi; [done|].
  cbn [find_bitmap_candidate].
  fold (bitmap_candidate filename (Z.rem (j + i0) N_BITMAP_EXTENSIONS)).
  rewrite Hnone by (apply Z.rem_bound_pos; unfold N_BITMAP_EXTENSIONS; lia).
  apply IH. lia.
Qed.

Lemma find_bitmap_candidate_first fs filename j k todo :
  0 <= j < N_BITMAP_EXTENSIONS → 0 <= k < N_BITMAP_EXTENSIONS →
  is_Some (fs !! bitmap_candidate filename k) →
  (k ≠ j → fs !! bitmap_candidate filename j = None) →
  find_bitmap_candidate fs filename j 0 (S (S todo))
  = Some ((k - j) mod 2, k, bitmap_candidate filename k).
Proof.
  unfold N_BITMAP_EXTENSIONS. intros Hj Hk [f Hf] Hfirst.
  cbn [find_bitmap_candidate].
  fold (bitmap_candidate filename (Z.rem (j + 0) N_BITMAP_EXTENSIONS)).
  fold (bitmap_candidate filename (Z.rem (j + (0 + 1)) N_BITMAP_EXTENSIONS)).
  unfold N_BITMAP_EXTENSIONS.
  assert (j = 0 ∨ j = 1) as [-> | ->] by lia;
    assert (k = 0 ∨ k = 1) as [-> | ->] by lia;
    change (Z.rem (0 + 0) 2) with 0; change (Z.rem (1 + 0) 2) with 1;
    change (Z.rem (0 + (0 + 1)) 2) with 1; change (Z.rem (1 + (0 + 1)) 2) with 0;
    rewrite ?Hfirst by done; by rewrite Hf.
Qed.

(** X13. For a non-empty name without bitmap extension ReadBitmapSize
    and ReadBitmap try the names with ".pbm" and ".pbm.gz" appended,
    starting with the one that was found last. Without a candidate both
    return 0 with "Cannot find bitmap file"; otherwise the first
    candidate is read, and its index is cached when it was read with
    success. The 14 iterations of the loop of ReadBitmapSize find what
    the 2 of ReadBitmap find. *)
Theorem ReadBitmap_probes_extensions w filename minX maxX minY maxY :
  bare_bitmap_name filename →
  0 <= bitmapExtension w < N_BITMAP_EXTENSIONS →
  ((∀ k, 0 <= k < N_BITMAP_EXTENSIONS →
         files w !! bitmap_candidate filename k = None) →
   ReadBitmapSize w filename = (Failure (cannot_find_bitmap filename), w)
   ∧ ReadBitmap w filename minX maxX minY maxY
     = (Failure (cannot_find_bitmap filename), w))
  ∧ (∀ k, 0 <= k < N_BITMAP_EXTENSIONS →
       is_Some (files w !! bitmap_candidate filename k) →
       (k ≠ bitmapExtension w →
        files w !! bitmap_candidate filename (bitmapExtension w) = None) →
       ReadBitmapSize w filename
       = match bitmap_size_reader k (files w) (bitmap_candidate filename k) with
         | Failure e => (Failure e, w)
         | Success size => (Success size, with_bitmapExtension k w)
         end
       ∧ ReadBitmap w filename minX maxX minY maxY
         = match bitmap_reader k (files w) (bitmap_candidate filename k) with
           | Failure e => (Failure e, w)
           | Success (buffer, iw, ih) =>
               (ReadBitmap_region filename buffer iw ih minX maxX minY maxY,
                with_bitmapExtension k w)
           end).
Proof.
  intros (Hne & Hpbm & Hgz) Hj.
  unfold ReadBitmapSize, ReadBitmap, ReadBitmap_decode.
  rewrite string_length_nonempty, Hpbm, Hgz by done. split.
  - intros Hnone. by rewrite !find_bitmap_candidate_none by (done || lia).
  - intros k Hk Hsome Hfirst.
    change (Z.to_nat N_EXTENSIONS) with 14%nat.
    change (Z.to_nat N_BITMAP_EXTENSIONS) with 2%nat.
    rewrite !(find_bitmap_candidate_first _ _ _ k) by done.
    pose proof (Z.mod_pos_bound (k - bitmapExtension w) 2 ltac:(done)).
    assert ((N_BITMAP_EXTENSIONS <=? (k - bitmapExtension w) mod 2) = false) as ->
      by (unfold N_BITMAP_EXTENSIONS; lia).
    split.
    + by destruct (bitmap_size_reader _ _ _).
    + by destruct (bitmap_reader _ _ _) as [[[buffer iw] ih]|].
Qed.

(** X14. When the candidate that ReadBitmapSize finds is the ".pbm"
    file, the missing break makes it read that file again with
    ReadPbmgzBitmapSize: it returns 1 only if both ReadPbmBitmapSize
    and ReadPbmgzBitmapSize accept the file, and the size it returns is
    the one of ReadPbmgzBitmapSize. ReadBitmap reads the same candidate
    with ReadPbmBitmap alone. *)
Theorem ReadBitmapSize_falls_through w filename :
  bare_bitmap_name filename →
  bitmapExtension w = 0 →
  is_Some (files w !! (filename +:+ ".pbm")) →
  (∀ size w',
     ReadBitmapSize w filename = (Success size, w') ↔
     (∃ size', ReadPbmBitmapSize (files w) (filename +:+ ".pbm") = Success size')
     ∧ ReadPbmgzBitmapSize (files w) (filename +:+ ".pbm") = Success size
     ∧ w' = with_bitmapExtension 0 w)
  ∧ (ReadBitmap_decode w filename).1
    = ReadPbmBitmap (files w) (filename +:+ ".pbm").
Proof.
  intros (Hne & Hpbm & Hgz) Hj Hsome.
  unfold ReadBitmapSize, ReadBitmap_decode.
  rewrite string_length_nonempty, Hpbm, Hgz, Hj by done.
  change (Z.to_nat N_EXTENSIONS) with 14%nat.
  change (Z.to_nat N_BITMAP_EXTENSIONS) with 2%nat.
  rewrite !(find_bitmap_candidate_first _ _ _ 0) by done.
  change ((0 - 0) mod 2) with 0. change (N_BITMAP_EXTENSIONS <=? 0) with false.
  change (bitmap_candidate filename 0) with (filename +:+ ".pbm").
  unfold bitmap_size_reader, bitmap_reader. change (0 =? 0) with true. cbv iota.
  split.
  - intros size w'.
    destruct (ReadPbmBitmapSize _ _) as [size'|e].
    + destruct (ReadPbmgzBitmapSize _ _) as [size''|e]; split.
      * intros ?; simplify_eq. split; [by eexists|done].
      * by intros (_ & ? & ->); simplify_eq.
      * done.
      * by intros (_ & ? & _).
    + split; [done|]. by intros ([? ?] & _).
  - by destruct (ReadPbmBitmap _ _) as [[[buffer iw] ih]|].
Qed.

(** ** Regions of bitmaps *)








Section BitmapRegion.

Variables (buffer : list Z) (iw ih xmin xmax : Z).
Hypothesis Hiw : 0 <= iw < 2 ^ 31.
Hypothesis Hbuffer : Z.of_nat (length buffer) = ih * bytes_per_line iw.
Hypothesis Hx : 0 <= xmin <= xmax.
Hypothesis Hxmax : xmax < 2 ^ 31 - 8.



End BitmapRegion.




(** ** WriteBitmap and ReadBitmap *)

Lemma list_ascii_of_string_app (a b : string) :
  list_ascii_of_string (a +:+ b) = list_ascii_of_string a ++ list_ascii_of_string b.
Proof.
  induction a as [|ch a IH]; [done|].
  rewrite string_app_cons. cbn [list_ascii_of_string app]. by rewrite IH.
Qed.






(** ** Names that end in ".jpeg" *)

Lemma tail_from_app k (s ext : string) :
  (k <= String.length ext)%nat →
  tail_from k (s +:+ ext)
  = drop (String.length ext - k) (list_ascii_of_string ext).
Proof.
  intros Hk. unfold tail_from.
  rewrite list_ascii_of_string_app, string_app_length.
  rewrite drop_app_ge by (rewrite list_ascii_of_string_length; lia).
  f_equal. rewrite list_ascii_of_string_length. lia.
Qed.

Lemma ends_with_jpeg base (ext : string) :
  (String.length ext <= 5)%nat →
  ends_with (base +:+ ".jpeg") ext
  = strcasecmp0 (drop (5 - String.length ext) (list_ascii_of_string ".jpeg"))
      (list_ascii_of_string ext).
Proof. intros Hk. unfold ends_with. by rewrite tail_from_app. Qed.

(** X17. A name that ends in ".jpeg" is read as a JPEG file by
    ReadImage and ReadImageSize, but WriteImage, which knows ".jpg"
    only, refuses it as an unrecognized extension and creates no
    file. *)
Theorem jpeg_names_read_not_written w base pixels width height compressionMethod :
  base ≠ ""%string →
  ReadImage_decode w (base +:+ ".jpeg")
  = (ReadJpgImage (files w) (base +:+ ".jpeg"), w)
  ∧ ReadImageSize w (base +:+ ".jpeg")
    = (ReadJpgImageSize (files w) (base +:+ ".jpeg"), w)
  ∧ WriteImage (files w) (base +:+ ".jpeg") pixels width height compressionMethod
    = (Failure ("Unrecognized file extension for image file "
                +:+ (base +:+ ".jpeg") +:+ nl), files w).
Proof.
  intros Hne.
  assert (1 <= String.length base)%nat as Hlen
    by (destruct base; [done|cbn; lia]).
  unfold ReadImage_decode, ReadImageSize, WriteImage, has_extension.
  rewrite !ends_with_jpeg by (cbn; lia).
  rewrite string_app_length. cbn [String.length].
  repeat match goal with
         | |- context [strcasecmp0 ?a ?b] =>
             let v := eval vm_compute in (strcasecmp0 a b) in
             change (strcasecmp0 a b) with v
         end.
  assert ((String.length base + 5 =? 0)%nat = false) as ->
    by (apply Nat.eqb_neq; lia).
  assert ((String.length base + 5 <? 5)%nat = false) as ->
    by (apply Nat.ltb_ge; lia).
  assert ((5 <? String.length base + 5)%nat = true) as ->
    by (apply Nat.ltb_lt; lia).
  by rewrite !andb_false_r.
Qed.

End Imio.

(** * The routines on sample data *)

(** C2. An 8-bit uncompressed BMP file of 2 by 2 pixels, whose rows are
    padded to four bytes: the rows stored bottom-up are 10 11 and
    20 21, so the top-down image is 20 21, 10 11. [ReadBmpImage]
    advances by a row size of 0 instead of 4 and returns the bottom row
    twice. *)
Theorem ReadBmpImage_row_stride :
  ReadBmpImage sample_env {[ "a.bmp"%string := sample_bmp ]} "a.bmp"
  = Success ([10; 11; 10; 11], 2, 2)
  ∧ rowsize 8 2 = 0
  ∧ 2 + bmp_padding 2 = 4
  ∧ top_down_rows [20; 21; 10; 11] sample_bmp 1078 2 2
  ∧ ¬ top_down_rows [10; 11; 10; 11] sample_bmp 1078 2 2.
Proof.
  split; [vm_compute; reflexivity|].
  split; [reflexivity|]. split; [reflexivity|]. split.
  - intros r Hr. assert (r = 0 ∨ r = 1) as [-> | ->] by lia;
      vm_compute; reflexivity.
  - intros H. specialize (H 0 ltac:(lia)). vm_compute in H. discriminate H.
Qed.

(** C3. A file "a.ppm" that holds a binary PPM of 1 by 1 pixel:
    [ReadPpmImage] reads it and [ReadImageSize] finds its size, but
    [ReadImage] has no case for ".ppm", probes "a.ppm.tif" and the
    other candidates, and fails. *)
Theorem ReadImage_ppm_not_dispatched :
  ReadPpmImage sample_env (files (sample_world "a.ppm" sample_ppm)) "a.ppm"
  = Success ([200], 1, 1)
  ∧ ReadImageSize sample_env (sample_world "a.ppm" sample_ppm) "a.ppm"
    = (Success (1, 1), sample_world "a.ppm" sample_ppm)
  ∧ ReadImage sample_env (sample_world "a.ppm" sample_ppm) "a.ppm" (-1) (-1) (-1) (-1)
    = (Failure (cannot_find_image "a.ppm"), sample_world "a.ppm" sample_ppm).
Proof. repeat split; vm_compute; reflexivity. Qed.

(** ** Instances of the theorems *)



(** The bytes of that file: "M1", "3", "1 1", "-5 7" and "a.tif b.tif",
    each ended by a newline, and the twelve bytes of the first vertex
    of the array. *)
Lemma map_file_sample :
  map_file [sample_vertex; sample_vertex] 3 1 1 (-5) 7 "a.tif" "b.tif"
  = [77; 49; 10; 51; 10; 49; 32; 49; 10; 45; 53; 32; 55; 10;
     97; 46; 116; 105; 102; 32; 98; 46; 116; 105; 102; 10;
     0; 0; 128; 63; 0; 0; 0; 64; 0; 0; 128; 63].
Proof. vm_compute. reflexivity. Qed.






Lemma unrecognized_sample : unrecognized "img".
Proof. repeat split. Qed.

Lemma ReadImage_probes_extensions_witness :
  probes_extensions sample_env (sample_world "img.pgm" sample_pgm) "img"
    (-1) (-1) (-1) (-1).
Proof.
  apply (ReadImage_probes_extensions sample_env (sample_world "img.pgm" sample_pgm)
           "img" (-1) (-1) (-1) (-1));
    [discriminate | exact unrecognized_sample
    | vm_compute; split; [discriminate | reflexivity]].
Defined.

(** C6, as stated, fails for the empty path: no candidate exists, but
    the routines do not probe and report "Image filename is empty". *)
Lemma ReadImage_empty_path :
  ReadImage sample_env empty_world "" (-1) (-1) (-1) (-1)
  = (Failure ("Image filename is empty." +:+ nl), empty_world)
  ∧ ReadImageSize sample_env empty_world ""
    = (Failure ("Image filename is empty." +:+ nl), empty_world)
  ∧ unrecognized ""
  ∧ ¬ probes_extensions sample_env empty_world "" (-1) (-1) (-1) (-1).
Proof.
  split; [reflexivity|]. split; [reflexivity|]. split; [repeat split|].
  intros [Hnone _].
  destruct Hnone as [Hread _]; [intros ext _; apply lookup_empty|].
  vm_compute in Hread. discriminate Hread.
Qed.

Lemma WriteImage_ReadPgmImage_round_trip_witness :
  pgm_round_trip sample_env ∅ "a.pgm" [1; 2; 3; 4; 5; 6] 3 2 UncompressedImage.
Proof.
  apply (WriteImage_ReadPgmImage_round_trip sample_env ∅ "a.pgm"
           [1; 2; 3; 4; 5; 6] 3 2 UncompressedImage);
    [vm_compute; lia | reflexivity | reflexivity | reflexivity
    | lia | lia | lia | reflexivity].
Defined.

(** C7, as stated, fails for a buffer without pixels: [fwrite] of zero
    bytes returns 0 and [WriteImage] reports a failure. *)
Lemma WriteImage_empty_image_fails :
  WriteImage sample_env ∅ "a.pgm" [] 0 3 UncompressedImage
  = (Failure ("Could not write to file a.pgm" +:+ nl), {[ "a.pgm"%string := [] ]})
  ∧ ¬ pgm_round_trip sample_env ∅ "a.pgm" [] 0 3 UncompressedImage.
Proof.
  assert (WriteImage sample_env ∅ "a.pgm" [] 0 3 UncompressedImage
          = (Failure ("Could not write to file a.pgm" +:+ nl),
             {[ "a.pgm"%string := [] ]})) as Hw.
  { rewrite WriteImage_pgm by (reflexivity || lia || (vm_compute; lia)).
    cbn [Z.mul Z.eqb reached_file sample_env]. by rewrite insert_empty. }
  split; [exact Hw|].
  intros (fs' & Hok & _). rewrite Hw in Hok. discriminate Hok.
Qed.

Lemma WriteBitmap_ReadPbmBitmap_format_witness :
  writes_pbm_file sample_env ∅ "m.pbm" [160; 64; 255] 3 2 UncompressedBitmap
  ∧ (WriteBitmap sample_env ∅ "m.pbm" [160; 64; 255] 3 2 UncompressedBitmap).1
    = Success ()
  ∧ Z.of_nat (length (take (Z.to_nat (2 * ((3 + 7) / 8))) [160; 64; 255]))
    = 2 * ((3 + 7) / 8)
  ∧ ∀ x y, 0 <= x < 3 → 0 <= y < 2 →
      bitmap_pixel [160; 64; 255] 3 x y
      = Z.testbit
          (default 0 (take (Z.to_nat (2 * ((3 + 7) / 8))) [160; 64; 255]
                      !! Z.to_nat (y * ((3 + 7) / 8) + x / 8)))
          (7 - x mod 8).
Proof.
  refine (proj1 (WriteBitmap_ReadPbmBitmap_format sample_env ∅ "m.pbm"
                   [160; 64; 255] 3 2 UncompressedBitmap _ _ _) _ _ _ _ _);
    [lia | lia | reflexivity | reflexivity | reflexivity | lia | lia
    | vm_compute; discriminate].
Defined.

(** The bytes of that file: "P4", "3 2", and the two rows 101 and 010
    with the leftmost pixel in the most significant bit; the third byte
    of the buffer is not written. *)
Lemma pbm_file_sample :
  pbm_file 3 2 (take (Z.to_nat (2 * ((3 + 7) / 8))) [160; 64; 255])
  = [80; 52; 10; 51; 32; 50; 10; 160; 64].
Proof. vm_compute. reflexivity. Qed.

(** C8, as stated, fails for a bitmap without rows of pixels: [fwrite]
    of zero bytes returns 0, [WriteBitmap] returns 0 without closing
    the stream, and the header has not reached the file. *)
Lemma WriteBitmap_empty_bitmap_unwritten :
  WriteBitmap sample_env ∅ "m.pbm" [] 3 0 UncompressedBitmap
  = (Failure ("Could not write to file m.pbm" +:+ nl), {[ "m.pbm"%string := [] ]})
  ∧ ¬ writes_pbm_file sample_env ∅ "m.pbm" [] 3 0 UncompressedBitmap.
Proof.
  assert (WriteBitmap sample_env ∅ "m.pbm" [] 3 0 UncompressedBitmap
          = (Failure ("Could not write to file m.pbm" +:+ nl),
             {[ "m.pbm"%string := [] ]})) as Hw.
  { rewrite WriteBitmap_pbm by (reflexivity || lia || (vm_compute; discriminate)).
    cbn [Z.mul Z.eqb reached_file sample_env]. by rewrite insert_empty. }
  split; [exact Hw|].
  intros (r & fs' & Hwrite & Hfile). rewrite Hw in Hwrite.
  injection Hwrite as _ <-. rewrite lookup_singleton_eq in Hfile.
  vm_compute in Hfile. discriminate Hfile.
Qed.

Lemma ReadTiffImage_photometric_witness :
  ∃ photo raw,
    tif_photometric sample_tiff = Some photo
    ∧ take (length (decoded_strips sample_tiff)) raw = decoded_strips sample_tiff
    ∧ (photo ≠ PHOTOMETRIC_MINISBLACK →
       [254; 253; 252; 251] = complement <$> raw
       ∧ take (length (decoded_strips sample_tiff)) [254; 253; 252; 251]
         = complement <$> decoded_strips sample_tiff
       ∧ ∀ i v r k, [254; 253; 252; 251] !! i = Some v → raw !! i = Some r →
           0 <= k < 8 → Z.testbit v k = negb (Z.testbit r k))
    ∧ (photo = PHOTOMETRIC_MINISBLACK →
       [254; 253; 252; 251] = raw
       ∧ take (length (decoded_strips sample_tiff)) [254; 253; 252; 251]
         = decoded_strips sample_tiff).
Proof.
  apply (ReadTiffImage_photometric tiff_env {[ "a.tif"%string := [] ]} "a.tif" []
           sample_tiff [254; 253; 252; 251] 2 2);
    [reflexivity | reflexivity | vm_compute; discriminate | reflexivity
    | vm_compute; reflexivity].
Defined.



(** ** Instances of the further properties *)

Lemma separator_sample : separator [35; 99; 10] ∧ separator [32] ∧ separator [10].
Proof.
  split_and!.
  - apply (separator_comment [99] []); [|constructor].
    intros [H|H]%elem_of_cons; [discriminate H|by apply elem_of_nil in H].
  - apply separator_blank; [by left|constructor].
  - apply separator_blank; [by right; right|constructor].
Qed.

Lemma ReadHeader_accepts_comments_witness :
  ReadHeader commented_pgm = Some (chr "5", 2, 3, Some 255, [1; 2; 3; 4; 5; 6]).
Proof.
  apply (proj1 (ReadHeader_accepts_comments (chr "5") [35; 99; 10] [32] [10]
                  2 3 255 10 [1; 2; 3; 4; 5; 6]
                  (proj1 separator_sample) (proj1 (proj2 separator_sample))
                  (proj2 (proj2 separator_sample))
                  ltac:(discriminate) ltac:(discriminate)
                  ltac:(lia) ltac:(lia) ltac:(lia) eq_refl)).
  by left.
Defined.

Lemma ReadHeader_requires_witness :
  (∃ r, sample_pgm = chr "P" :: chr "5" :: r)
  ∧ (chr "5" = chr "4" ∨ chr "5" = chr "5" ∨ chr "5" = chr "6")
  ∧ 0 <= 2 < 2 ^ 32 ∧ 0 <= 2 < 2 ^ 32
  ∧ (Some 255 = None ↔ chr "5" = chr "4")
  ∧ [1; 2; 3; 4] `suffix_of` sample_pgm.
Proof.
  apply (ReadHeader_requires sample_pgm (chr "5") 2 2 (Some 255) [1; 2; 3; 4]).
  vm_compute. reflexivity.
Defined.

Lemma pnm_readers_first_bytes_witness :
  ReadPgmImage sample_env {[ "c.pgm"%string := commented_pgm ]} "c.pgm"
  = (if Z.of_nat (length [1; 2; 3; 4; 5; 6]) <? (2 * 3) mod 2 ^ 32
     then Failure ("Image file " +:+ "c.pgm" +:+ " apparently truncated." +:+ nl)
     else Success (take (Z.to_nat ((2 * 3) mod 2 ^ 32)) [1; 2; 3; 4; 5; 6], 2, 3))
  ∧ ReadPpmImage sample_env {[ "c.pgm"%string := commented_pgm ]} "c.pgm"
    = ReadPgmImage sample_env {[ "c.pgm"%string := commented_pgm ]} "c.pgm".
Proof.
  apply (pnm_readers_first_bytes sample_env {[ "c.pgm"%string := commented_pgm ]}
           "c.pgm" (chr "5") [35; 99; 10] [32] [10] 2 3 255 10 [1; 2; 3; 4; 5; 6]);
    [exact (proj1 separator_sample) | exact (proj1 (proj2 separator_sample))
    | exact (proj2 (proj2 separator_sample))
    | discriminate | discriminate | by left | lia | lia | lia
    | reflexivity | reflexivity | reflexivity].
Defined.

Lemma ReadBmpImageSize_fields_witness :
  ReadBmpImageSize {[ "a.bmp"%string := sample_bmp ]} "a.bmp" = Success (2, 2)
  ↔ (54 <= length sample_bmp)%nat
    ∧ le_value (take 2 sample_bmp) = BMP_FILE_TYPE
    ∧ 2 = s32 (le_value (take 4 (drop 18 sample_bmp)))
    ∧ 2 = s32 (le_value (take 4 (drop 22 sample_bmp))).
Proof.
  apply (ReadBmpImageSize_fields {[ "a.bmp"%string := sample_bmp ]} "a.bmp"
           sample_bmp 2 2).
  reflexivity.
Defined.

Lemma ReadBmpImage_bit_count_witness :
  ReadBmpImage sample_env {[ "c.bmp"%string := sample_bmp24 ]} "c.bmp"
  = Failure ("Unsupported pixel size ("
             +:+ sprintf_d (le_value (take 2 (drop 28 sample_bmp24)))
             +:+ ") for file " +:+ "c.bmp"
             +:+ ". Convert to grayscale image" +:+ nl)
  ∧ ReadBmpImageSize {[ "c.bmp"%string := sample_bmp24 ]} "c.bmp"
    = Success (s32 (le_value (take 4 (drop 18 sample_bmp24))),
               s32 (le_value (take 4 (drop 22 sample_bmp24)))).
Proof.
  apply (ReadBmpImage_bit_count sample_env {[ "c.bmp"%string := sample_bmp24 ]}
           "c.bmp" sample_bmp24);
    [reflexivity | vm_compute; lia | reflexivity | vm_compute; discriminate].
Defined.

Lemma sample_bmp_bytes : Forall (fun byte => 0 <= byte < 256) sample_bmp.
Proof. apply (bool_decide_unpack _). vm_compute. exact I. Qed.

Lemma ReadBmpImage_rows_witness :
  Z.of_nat (length [10; 11; 10; 11]) = 2 * Z.max 2 0
  ∧ (∀ r, 0 <= r < 2 →
       take (Z.to_nat 2) (drop (Z.to_nat (r * 2)) [10; 11; 10; 11])
       = take (Z.to_nat 2)
           (drop (Z.to_nat (le_value (take 4 (drop 10 sample_bmp))
                            + (2 - 1 - r) * (2 - 2 mod 4))) sample_bmp))
  ∧ (2 mod 4 = 0 →
     top_down_rows [10; 11; 10; 11] sample_bmp
       (le_value (take 4 (drop 10 sample_bmp))) 2 2).
Proof.
  apply (ReadBmpImage_rows sample_env {[ "a.bmp"%string := sample_bmp ]} "a.bmp"
           sample_bmp [10; 11; 10; 11] 2 2);
    [reflexivity | exact sample_bmp_bytes | vm_compute; reflexivity | lia | lia].
Defined.

Lemma size_routines_agree_with_readers_witness :
  ReadPgmImageSize {[ "a.pgm"%string := sample_pgm ]} "a.pgm" = Success (2, 2).
Proof.
  apply (proj1 (proj2 (size_routines_agree_with_readers sample_env
                         {[ "a.pgm"%string := sample_pgm ]} "a.pgm"
                         [1; 2; 3; 4] 2 2))).
  vm_compute. reflexivity.
Defined.

Lemma ReadTiffImage_requires_witness :
  ∃ image iw ih,
    ({[ "a.tif"%string := [] ]} : gmap string (list Z)) !! "a.tif"%string
      ≫= TIFFOpen tiff_env = Some image
    ∧ tif_bitspersample image = Some 8
    ∧ (tif_samplesperpixel image = None ∨ tif_samplesperpixel image = Some 1)
    ∧ tif_imagewidth image = Some iw ∧ 2 = s32 iw
    ∧ tif_imagelength image = Some ih ∧ 2 = s32 ih
    ∧ defined (tif_photometric image) = true
    ∧ Z.of_nat (length [254; 253; 252; 251])
      = size_t_of (Z.of_nat (length (tif_strips image)) * tif_stripsize image).
Proof.
  apply (ReadTiffImage_requires tiff_env {[ "a.tif"%string := [] ]} "a.tif"
           [254; 253; 252; 251] 2 2).
  vm_compute. reflexivity.
Defined.

Lemma ReadImageSize_then_ReadImage_witness :
  files (cached_world "img.pgm" sample_pgm 4)
  = files (sample_world "img.pgm" sample_pgm)
  ∧ bitmapExtension (cached_world "img.pgm" sample_pgm 4)
    = bitmapExtension (sample_world "img.pgm" sample_pgm)
  ∧ 0 <= extension (cached_world "img.pgm" sample_pgm 4) < N_EXTENSIONS
  ∧ ReadImageSize sample_env (cached_world "img.pgm" sample_pgm 4) "img"
    = (Success (2, 2), cached_world "img.pgm" sample_pgm 4)
  ∧ (ReadImage sample_env (cached_world "img.pgm" sample_pgm 4) "img"
       (-1) (-1) (-1) (-1)).1
    = (ReadImage sample_env (sample_world "img.pgm" sample_pgm) "img"
         (-1) (-1) (-1) (-1)).1.
Proof.
  apply (ReadImageSize_then_ReadImage sample_env (sample_world "img.pgm" sample_pgm)
           "img" (2, 2) (cached_world "img.pgm" sample_pgm 4) (-1) (-1) (-1) (-1));
    [vm_compute; split; [discriminate | reflexivity] | vm_compute; reflexivity].
Defined.

Lemma ReadImage_repeated_witness :
  files (cached_world "img.pgm" sample_pgm 4)
  = files (sample_world "img.pgm" sample_pgm)
  ∧ bitmapExtension (cached_world "img.pgm" sample_pgm 4)
    = bitmapExtension (sample_world "img.pgm" sample_pgm)
  ∧ 0 <= extension (cached_world "img.pgm" sample_pgm 4) < N_EXTENSIONS
  ∧ ReadImage sample_env (cached_world "img.pgm" sample_pgm 4) "img"
      (-1) (-1) (-1) (-1)
    = (Success ([1; 2; 3; 4], 2, 2), cached_world "img.pgm" sample_pgm 4)
  ∧ (ReadImageSize sample_env (cached_world "img.pgm" sample_pgm 4) "img").2
    = cached_world "img.pgm" sample_pgm 4.
Proof.
  apply (ReadImage_repeated sample_env (sample_world "img.pgm" sample_pgm)
           "img" ([1; 2; 3; 4], 2, 2) (cached_world "img.pgm" sample_pgm 4)
           (-1) (-1) (-1) (-1));
    [vm_compute; split; [discriminate | reflexivity] | vm_compute; reflexivity].
Defined.

Lemma writers_touch_only_their_target_witness :
  ((WriteImage sample_env {[ "m.pbm"%string := sample_pbm ]} "m"
      [1; 2] 2 1 UncompressedImage).2 !! "m.pbm"%string
   = ({[ "m.pbm"%string := sample_pbm ]} : gmap string (list Z)) !! "m.pbm"%string
   ∧ (WriteJpgImage sample_env {[ "m.pbm"%string := sample_pbm ]} "m"
        [1; 2] 2 1 95).2 !! "m.pbm"%string
     = ({[ "m.pbm"%string := sample_pbm ]} : gmap string (list Z)) !! "m.pbm"%string
   ∧ (WriteMap sample_env {[ "m.pbm"%string := sample_pbm ]} "m"
        [sample_vertex] 0 2 1 0 0 "a" "b" UncompressedMap).2 !! "m.pbm"%string
     = ({[ "m.pbm"%string := sample_pbm ]} : gmap string (list Z)) !! "m.pbm"%string)
  ∧ (WriteBitmap sample_env {[ "mask"%string := sample_pbm ]} "mask"
       [128] 2 1 UncompressedBitmap).2 !! "mask"%string
    = ({[ "mask"%string := sample_pbm ]} : gmap string (list Z)) !! "mask"%string.
Proof.
  split.
  - apply (proj1 (writers_touch_only_their_target sample_env
                    {[ "m.pbm"%string := sample_pbm ]} "m" "m.pbm" [1; 2] 2 1
                    UncompressedImage 95 [128] UncompressedBitmap
                    [sample_vertex] 0 0 0 "a" "b" UncompressedMap)).
    discriminate.
  - apply (proj2 (writers_touch_only_their_target sample_env
                    {[ "mask"%string := sample_pbm ]} "mask" "mask" [1; 2] 2 1
                    UncompressedImage 95 [128] UncompressedBitmap
                    [sample_vertex] 0 0 0 "a" "b" UncompressedMap)).
    vm_compute. discriminate.
Defined.

Lemma WriteImage_ReadImage_round_trip_witness :
  ∃ fs',
    WriteImage sample_env (files empty_world) "a.pgm" [1; 2; 3; 4; 5; 6] 3 2
      UncompressedImage
    = (Success (), fs')
    ∧ let w' := {| files := fs'; extension := extension empty_world;
                   bitmapExtension := bitmapExtension empty_world |} in
      ReadImageSize sample_env w' "a.pgm" = (Success (3, 2), w')
      ∧ ReadImage sample_env w' "a.pgm" (-1) (-1) (-1) (-1)
        = (Success ([1; 2; 3; 4; 5; 6], 3, 2), w').
Proof.
  apply (WriteImage_ReadImage_round_trip sample_env empty_world "a.pgm"
           [1; 2; 3; 4; 5; 6] 3 2 UncompressedImage (-1) (-1) (-1) (-1));
    [vm_compute; lia | reflexivity | reflexivity | reflexivity
    | lia | lia | lia | reflexivity | lia | left; lia | lia | left; lia].
Defined.

Lemma bare_bitmap_name_sample : bare_bitmap_name "m".
Proof. repeat split. discriminate. Qed.

Lemma ReadBitmap_probes_extensions_witness :
  ReadBitmapSize sample_gz_size (sample_world "m.pbm" sample_pbm) "m"
  = match bitmap_size_reader sample_gz_size 0
            (files (sample_world "m.pbm" sample_pbm)) (bitmap_candidate "m" 0) with
    | Failure e => (Failure e, sample_world "m.pbm" sample_pbm)
    | Success size =>
        (Success size, with_bitmapExtension 0 (sample_world "m.pbm" sample_pbm))
    end
  ∧ ReadBitmap sample_env sample_gz_bitmap (sample_world "m.pbm" sample_pbm) "m"
      (-1) (-1) (-1) (-1)
    = match bitmap_reader sample_env sample_gz_bitmap 0
              (files (sample_world "m.pbm" sample_pbm)) (bitmap_candidate "m" 0) with
      | Failure e => (Failure e, sample_world "m.pbm" sample_pbm)
      | Success (buffer, iw, ih) =>
          (ReadBitmap_region sample_env "m" buffer iw ih (-1) (-1) (-1) (-1),
           with_bitmapExtension 0 (sample_world "m.pbm" sample_pbm))
      end.
Proof.
  apply (proj2 (ReadBitmap_probes_extensions sample_env sample_gz_size
                  sample_gz_bitmap (sample_world "m.pbm" sample_pbm) "m"
                  (-1) (-1) (-1) (-1) bare_bitmap_name_sample
                  ltac:(vm_compute; split; [discriminate | reflexivity])) 0);
    [vm_compute; split; [discriminate | reflexivity]
    | by eexists | intros H; by destruct H].
Defined.

Lemma ReadBitmapSize_falls_through_witness :
  (ReadBitmap_decode sample_env sample_gz_bitmap
     (sample_world "m.pbm" sample_pbm) "m").1
  = ReadPbmBitmap sample_env (files (sample_world "m.pbm" sample_pbm))
      ("m" +:+ ".pbm").
Proof.
  apply (proj2 (ReadBitmapSize_falls_through sample_env sample_gz_size
                  sample_gz_bitmap (sample_world "m.pbm" sample_pbm) "m"
                  bare_bitmap_name_sample eq_refl ltac:(by eexists))).
Defined.



Lemma jpeg_names_read_not_written_witness :
  ReadImage_decode sample_env empty_world ("a" +:+ ".jpeg")
  = (ReadJpgImage sample_env (files empty_world) ("a" +:+ ".jpeg"), empty_world)
  ∧ ReadImageSize sample_env empty_world ("a" +:+ ".jpeg")
    = (ReadJpgImageSize sample_env (files empty_world) ("a" +:+ ".jpeg"),
       empty_world)
  ∧ WriteImage sample_env (files empty_world) ("a" +:+ ".jpeg") [1] 1 1
      JpegQuality95
    = (Failure ("Unrecognized file extension for image file "
                +:+ ("a" +:+ ".jpeg") +:+ nl), files empty_world).
Proof.
  apply (jpeg_names_read_not_written sample_env empty_world "a" [1] 1 1
           JpegQuality95).
  discriminate.
Defined.
